(** * libxposed-example: the native demo module (demo.cpp, native_api.hpp)

    A shallow embedding of the three toy hooks of [demo.cpp], of the glue
    that receives the host's capability table, and of the hook engine the
    specification reconstructs behind the two capability pointers. *)

From Stdlib Require Import ZArith Bool Ascii Lia.
From stdpp Require Import gmap strings list.

Local Open Scope Z_scope.

(** ** C strings and the library functions the module calls on them

    A [const char *] argument is represented by the characters that precede
    its terminating NUL.  [strstr], [strcmp] (ISO C) and
    [std::string::ends_with] (C++20) belong to the C and C++ libraries; they
    are given here by their library specification, as executable
    functions. *)

Module CStr.

(** [is_prefix n h]: the characters of [n] are the first characters of [h]. *)
Fixpoint is_prefix (n h : string) : bool :=
  match n, h with
  | EmptyString, _ => true
  | String _ _, EmptyString => false
  | String c n', String d h' => Ascii.eqb c d && is_prefix n' h'
  end.

(** [strstr haystack needle]: the offset of the first occurrence of
    [needle] in [haystack] ([Some k] stands for the pointer
    [haystack + k]), or [None] for the null pointer. *)
Fixpoint strstr (haystack needle : string) : option nat :=
  if is_prefix needle haystack then Some 0%nat
  else match haystack with
       | EmptyString => None
       | String _ rest => S <$> strstr rest needle
       end.

(** [strcmp a b]: negative, zero or positive as [a] is less than, equal to
    or greater than [b] in the order of unsigned characters.  ISO C fixes
    the sign only; the sign is what is returned. *)
Fixpoint strcmp (a b : string) : Z :=
  match a, b with
  | EmptyString, EmptyString => 0
  | EmptyString, String _ _ => -1
  | String _ _, EmptyString => 1
  | String c a', String d b' =>
      if Ascii.eqb c d then strcmp a' b'
      else if (N_of_ascii c <? N_of_ascii d)%N then -1 else 1
  end.

(** [drop_chars k s]: [s] without its first [k] characters. *)
Fixpoint drop_chars (k : nat) (s : string) : string :=
  match k, s with
  | O, _ => s
  | S _, EmptyString => EmptyString
  | S k', String _ s' => drop_chars k' s'
  end.

(** [std::string(s).ends_with(x)]:
    [size() >= x.size() && compare(size() - x.size(), npos, x) == 0]. *)
Definition ends_with (s x : string) : bool :=
  (String.length x <=? String.length s)%nat
  && (strcmp (drop_chars (String.length s - String.length x) s) x =? 0).

(** The substring and suffix relations the claims speak of. *)
Definition contains (s x : string) : Prop :=
  exists pre post, s = pre +:+ x +:+ post.

Definition has_suffix (s x : string) : Prop :=
  exists pre, s = pre +:+ x.

End CStr.

(** ** The demo module: [native_api.hpp] and [demo.cpp] *)

Module Demo.

(** *** Pointers

    The module takes the address of its own functions
    ([(void * )fake], [on_library_loaded]) and of three of its globals
    ([&backup], [&backup_fopen], [&backup_FindClass]); every other pointer
    it handles comes from outside: the host, the C library, a loaded
    library or the JNI tables. *)

Inductive module_function :=
| F_fake | F_fake_fopen | F_fake_FindClass
| F_on_library_loaded | F_JNI_OnLoad | F_native_init.

Inductive backup_slot := S_backup | S_backup_fopen | S_backup_FindClass.

Inductive pointer :=
| nullptr
| Extern (a : Z)             (* an address outside the module *)
| Symbol (name : string)     (* the address the linker binds to a C library symbol *)
| Fn (f : module_function)   (* the address of a function of the module *)
| Slot (s : backup_slot).    (* the address of a global of the module *)

#[global] Instance module_function_eq_dec : EqDecision module_function.
Proof. solve_decision. Defined.
#[global] Instance backup_slot_eq_dec : EqDecision backup_slot.
Proof. solve_decision. Defined.
#[global] Instance pointer_eq_dec : EqDecision pointer.
Proof. solve_decision. Defined.

(** *** native_api.hpp *)

(** [NativeAPIEntries]: the capability table the host passes to
    [native_init]. *)
Record NativeAPIEntries := {
  version : Z;              (* uint32_t version *)
  hookFunc : pointer;       (* HookFunType hookFunc *)
  unhookFunc : pointer      (* UnhookFunType unhookFunc *)
}.

(** *** jni.h, as far as the module reads it *)

Definition JNI_VERSION_1_6 : Z := 0x00010006.

Record JNINativeInterface := { FindClass : pointer }.
Record JNIEnv := { functions : JNINativeInterface }.

(** [jvm->GetEnv(penv, version)] returns a status and stores an environment
    through [penv] ([None]: it stores the null pointer). *)
Record JavaVM := { GetEnv : Z -> Z * option JNIEnv }.

(** *** The globals of demo.cpp (lines 11, 47, 67, 92) *)

Record globals := {
  hook_func : pointer;
  backup : pointer;
  backup_fopen : pointer;
  backup_FindClass : pointer
}.

(** Static storage is zero-initialised; [hook_func] is initialised to
    [nullptr] explicitly. *)
Definition globals_at_load : globals :=
  {| hook_func := nullptr; backup := nullptr;
     backup_fopen := nullptr; backup_FindClass := nullptr |}.

Definition set_hook_func (p : pointer) (g : globals) : globals :=
  {| hook_func := p; backup := backup g;
     backup_fopen := backup_fopen g; backup_FindClass := backup_FindClass g |}.

Definition store (s : backup_slot) (p : pointer) (g : globals) : globals :=
  match s with
  | S_backup =>
      {| hook_func := hook_func g; backup := p;
         backup_fopen := backup_fopen g; backup_FindClass := backup_FindClass g |}
  | S_backup_fopen =>
      {| hook_func := hook_func g; backup := backup g;
         backup_fopen := p; backup_FindClass := backup_FindClass g |}
  | S_backup_FindClass =>
      {| hook_func := hook_func g; backup := backup g;
         backup_fopen := backup_fopen g; backup_FindClass := p |}
  end.

(** *** Calls that leave the module

    Every call the module makes through a pointer, or to a library function
    with an effect, is an event of the trace. *)

Inductive event :=
| EvLog (msg : string)
| EvGetEnv (ver : Z)
| EvDlsym (handle : pointer) (symbol : string)
| EvHook (callee func replace backup_arg : pointer)
| EvUnhook (callee func : pointer)
| EvCallInt (callee : pointer)
| EvFopen (callee : pointer) (filename mode : string)
| EvFindClass (callee : pointer) (env : option JNIEnv) (name : string).

(** The process outside the module.  [H] is its state; each field says what
    a call to the code behind a pointer does: the value it returns and the
    state it leaves, or [None] when the call does not return.  A
    [HookFunType] callee returns an [int] and may store a pointer through
    its [backup] argument. *)
Class Host (H : Type) := {
  call_hook : pointer -> pointer -> pointer -> pointer -> H ->
              option (Z * option pointer * H);
  call_dlsym : pointer -> string -> H -> pointer * H;
  call_int : pointer -> H -> option (Z * H);
  call_fopen : pointer -> string -> string -> H -> option (pointer * H);
  call_FindClass : pointer -> option JNIEnv -> string -> H ->
                   option (pointer * H)
}.

Inductive fault :=
| NullCall          (* a call through a null function pointer *)
| NullDeref         (* a read through a null object pointer *)
| SignedOverflow    (* [int] arithmetic out of range *)
| NoReturn.         (* the callee did not return *)

Section Module_code.
Context {H : Type} {host : Host H}.

Record world := {
  module : globals;
  host_state : H;
  trace : list event
}.

Inductive outcome (A : Type) :=
| Returns (a : A) (w : world)
| Faults (f : fault).
Arguments Returns {A} a w.
Arguments Faults {A} f.

Definition M (A : Type) : Type := world -> outcome A.

#[export] Instance M_ret : MRet M := fun A a w => Returns a w.
#[export] Instance M_bind : MBind M := fun A B f m w =>
  match m w with
  | Returns a w' => f a w'
  | Faults e => Faults e
  end.
#[export] Instance M_fmap : FMap M := fun A B f m => a ← m; mret (f a).

Definition get_globals : M globals := fun w => Returns (module w) w.

Definition put_globals (g : globals) : M unit := fun w =>
  Returns tt {| module := g; host_state := host_state w; trace := trace w |}.

Definition emit (e : event) : M unit := fun w =>
  Returns tt {| module := module w; host_state := host_state w;
                trace := trace w ++ [e] |}.

Definition throw {A} (e : fault) : M A := fun _ => Faults e.

(** An external call: the callee must not be null; the host says what it
    returns. *)
Definition external {A} (callee : pointer) (e : event)
    (f : H -> option (A * H)) : M A := fun w =>
  if decide (callee = nullptr) then Faults NullCall
  else match f (host_state w) with
       | None => Faults NoReturn
       | Some (a, h') =>
           Returns a {| module := module w; host_state := h';
                        trace := trace w ++ [e] |}
       end.

(** [int] is 32 bits wide on every Android ABI; signed overflow is
    undefined behaviour. *)
Definition INT_MIN : Z := - 2 ^ 31.
Definition INT_MAX : Z := 2 ^ 31 - 1.

Definition int_add (a b : Z) : M Z :=
  if (INT_MIN <=? a + b) && (a + b <=? INT_MAX) then mret (a + b)
  else throw SignedOverflow.

(** Modelled from the spec: [LOGD] is a macro of [logging.hpp], a file of the
    repository that is not among the sources; the spec counts logging among
    the parts that carry no behaviour, so [LOGD] records its message and
    returns. *)
Definition LOGD (msg : string) : M unit := emit (EvLog msg).

(** [dlsym(handle, symbol)] *)
Definition dlsym (handle : pointer) (symbol : string) : M pointer := fun w =>
  let '(p, h') := call_dlsym handle symbol (host_state w) in
  Returns p {| module := module w; host_state := h';
               trace := trace w ++ [EvDlsym handle symbol] |}.

(** [f(func, replace, (void ** )&slot)] for [f] of type [HookFunType]: the
    callee returns a status and may have stored a pointer in the global. *)
Definition call_HookFunType (f func replace : pointer) (s : backup_slot) : M Z :=
  r ← external f (EvHook f func replace (Slot s))
        (call_hook f func replace (Slot s));
  g ← get_globals;
  match r.2 with
  | Some p => put_globals (store s p g)
  | None => mret tt
  end;;
  mret r.1.

(** demo.cpp, lines 50-54. *)
Definition fake : M Z :=
  g ← get_globals;
  r ← external (backup g) (EvCallInt (backup g)) (call_int (backup g));
  int_add r 1.

(** demo.cpp, lines 70-78. *)
Definition fake_fopen (filename mode : string) : M pointer :=
  match CStr.strstr filename "banned" with
  | Some _ => mret nullptr
  | None =>
      g ← get_globals;
      external (backup_fopen g) (EvFopen (backup_fopen g) filename mode)
        (call_fopen (backup_fopen g) filename mode)
  end.

(** demo.cpp, lines 95-103. *)
Definition fake_FindClass (env : option JNIEnv) (name : string) : M pointer :=
  if CStr.strcmp name "dalvik/system/BaseDexClassLoader" =? 0
  then mret nullptr
  else
    g ← get_globals;
    external (backup_FindClass g) (EvFindClass (backup_FindClass g) env name)
      (call_FindClass (backup_FindClass g) env name).

(** demo.cpp, lines 116-124. *)
Definition on_library_loaded (name : string) (handle : pointer) : M unit :=
  if CStr.ends_with name "libtarget.so" then
    target ← dlsym handle "target_fun";
    g ← get_globals;
    call_HookFunType (hook_func g) target (Fn F_fake) S_backup;;
    mret tt
  else mret tt.

(** demo.cpp, lines 137-148.  [env] starts as [nullptr]; the status of
    [GetEnv] is not looked at, and [env->functions] is read before the
    call. *)
Definition JNI_OnLoad (jvm : JavaVM) (reserved : pointer) : M Z :=
  LOGD "JNI_OnLoad called";;
  emit (EvGetEnv JNI_VERSION_1_6);;
  match (GetEnv jvm JNI_VERSION_1_6).2 with
  | None => throw NullDeref
  | Some env =>
      g ← get_globals;
      call_HookFunType (hook_func g) (FindClass (functions env))
        (Fn F_fake_FindClass) S_backup_FindClass;;
      mret JNI_VERSION_1_6
  end.

(** demo.cpp, lines 178-191.  [entries] is the table the pointer argument
    points to. *)
Definition native_init (entries : NativeAPIEntries) : M pointer :=
  LOGD "NativeOnModuleLoaded called";;
  g ← get_globals;
  put_globals (set_hook_func (hookFunc entries) g);;
  g' ← get_globals;
  call_HookFunType (hook_func g') (Symbol "fopen") (Fn F_fake_fopen)
    S_backup_fopen;;
  mret (Fn F_on_library_loaded).

(** *** The functions of the module, as one family *)

Inductive entry :=
| Call_fake
| Call_fake_fopen (filename mode : string)
| Call_fake_FindClass (env : option JNIEnv) (name : string)
| Call_on_library_loaded (name : string) (handle : pointer)
| Call_JNI_OnLoad (jvm : JavaVM) (reserved : pointer)
| Call_native_init (entries : NativeAPIEntries).

Inductive value := V_void | V_int (z : Z) | V_ptr (p : pointer).

Definition run (c : entry) : M value :=
  match c with
  | Call_fake => V_int <$> fake
  | Call_fake_fopen filename mode => V_ptr <$> fake_fopen filename mode
  | Call_fake_FindClass env name => V_ptr <$> fake_FindClass env name
  | Call_on_library_loaded name handle =>
      on_library_loaded name handle;; mret V_void
  | Call_JNI_OnLoad jvm reserved => V_int <$> JNI_OnLoad jvm reserved
  | Call_native_init entries => V_ptr <$> native_init entries
  end.

(** The [(func, replace, backup)] arguments of the calls made through a
    [HookFunType] pointer, in order. *)
Fixpoint hook_calls (evs : list event) : list (pointer * pointer * pointer) :=
  match evs with
  | [] => []
  | EvHook _ func replace b :: rest => (func, replace, b) :: hook_calls rest
  | _ :: rest => hook_calls rest
  end.

(** The pointers those calls were made through. *)
Fixpoint hook_callees (evs : list event) : list pointer :=
  match evs with
  | [] => []
  | EvHook callee _ _ _ :: rest => callee :: hook_callees rest
  | _ :: rest => hook_callees rest
  end.

Definition is_unhook (e : event) : bool :=
  match e with EvUnhook _ _ => true | _ => false end.

(** What a returning [HookFunType] call leaves in the slot it was given. *)
Definition slot_after (s : backup_slot) (written : option pointer)
    (g : globals) : globals :=
  match written with
  | Some p => store s p g
  | None => g
  end.

(** The hook calls a returning run of each function makes. *)
Definition hooks_of (c : entry) (w : world)
  : list (pointer * pointer * pointer) :=
  match c with
  | Call_native_init _ =>
      [(Symbol "fopen", Fn F_fake_fopen, Slot S_backup_fopen)]
  | Call_JNI_OnLoad jvm _ =>
      match (GetEnv jvm JNI_VERSION_1_6).2 with
      | Some env =>
          [(FindClass (functions env), Fn F_fake_FindClass,
            Slot S_backup_FindClass)]
      | None => []
      end
  | Call_on_library_loaded name handle =>
      if CStr.ends_with name "libtarget.so"
      then [((call_dlsym handle "target_fun" (host_state w)).1,
             Fn F_fake, Slot S_backup)]
      else []
  | Call_fake | Call_fake_fopen _ _ | Call_fake_FindClass _ _ => []
  end.

(** The value of [hook_func] after a returning run of each function. *)
Definition hook_func_after (c : entry) (w : world) : pointer :=
  match c with
  | Call_native_init entries => hookFunc entries
  | _ => hook_func (module w)
  end.

End Module_code.

Arguments world : clear implicits.
Arguments outcome : clear implicits.
Arguments M : clear implicits.
Arguments Returns {H A} a w.
Arguments Faults {H A} f.

(** *** Concrete inputs *)

(** A host for running the module on concrete inputs: every external call
    returns at once, with a fixed answer. *)
Definition fixed_host : Host unit := {|
  call_hook _ _ _ _ h := Some (0, Some (Extern 4096), h);
  call_dlsym _ _ h := (Extern 8192, h);
  call_int _ h := Some (41, h);
  call_fopen _ _ _ h := Some (Extern 12288, h);
  call_FindClass _ _ _ h := Some (Extern 16384, h)
|}.

Definition hooked_globals : globals :=
  {| hook_func := Extern 256; backup := Extern 4096;
     backup_fopen := Extern 4096; backup_FindClass := Extern 4096 |}.

Definition world_of (g : globals) : world unit :=
  {| module := g; host_state := tt; trace := [] |}.

Definition table : NativeAPIEntries :=
  {| version := 2; hookFunc := Extern 256; unhookFunc := Extern 512 |}.

Definition jvm_with_env : JavaVM :=
  {| GetEnv _ := (0, Some {| functions := {| FindClass := Extern 768 |} |}) |}.

Definition jvm_without_env : JavaVM := {| GetEnv _ := (-2, None) |}.

End Demo.

(** ** The hook engine behind the two capability pointers

    The code that installs and removes hooks belongs to the host framework
    and is not part of the repository; only its declarations
    ([HookFunType], [UnhookFunType]) and its callers are.  It is modelled
    here from the specification's design of the engine (data model,
    components, error handling). *)

Module HookEngine.

Abbreviation byte := Byte.byte.
Abbreviation memory := (gmap Z byte).

(** Modelled from the spec: the error kinds of the engine, which is absent
    from the sources ("Error kinds: AlreadyHooked, NotHooked,
    UnsupportedInstruction, ProtectionDenied, InvalidAddress"). *)
Inductive PatchError :=
| AlreadyHooked | NotHooked | UnsupportedInstruction
| ProtectionDenied | InvalidAddress.

(** Results are returned to the caller as explicit values. *)
Inductive result (A : Type) :=
| Ok (a : A)
| Err (e : PatchError).
Arguments Ok {A} a.
Arguments Err {A} e.

(** Modelled from the spec: the [HookRecord] of the engine's data model, one
    per installed hook. *)
Record HookRecord := {
  target_address : Z;
  original_bytes : list byte;
  trampoline_address : Z;
  replacement_address : Z;
  active : bool
}.

(** Modelled from the spec: what the engine's design leaves to the
    instruction set and the operating system (the design notes ask for "an
    instruction-relocation strategy interface with one implementation per
    target instruction set"): which addresses hold executable code, which
    pages can be made writable, the encoding of a branch and of padding
    no-ops, the disassembler's split point (whole instructions covering at
    least the bytes asked for) and the relocation of copied instructions. *)
Class Platform := {
  executable : Z -> bool;
  patchable : Z -> bool;
  branch_to : Z -> Z -> list byte;
  nop_fill : nat -> list byte;
  split_point : memory -> Z -> nat -> option nat;
  relocate : Z -> Z -> list byte -> option (list byte);
  nop_fill_length : forall k, length (nop_fill k) = k;
  split_point_covers :
    forall m target k n, split_point m target k = Some n -> (k <= n)%nat
}.

(** Process memory, byte by byte. *)
Fixpoint read_bytes (m : memory) (a : Z) (n : nat) : option (list byte) :=
  match n with
  | O => Some []
  | S k =>
      match m !! a, read_bytes m (a + 1) k with
      | Some b, Some bs => Some (b :: bs)
      | _, _ => None
      end
  end.

Fixpoint write_bytes (m : memory) (a : Z) (bs : list byte) : memory :=
  match bs with
  | [] => m
  | b :: rest => write_bytes (<[a := b]> m) (a + 1) rest
  end.

Fixpoint all_patchable {platform : Platform} (a : Z) (n : nat) : bool :=
  match n with
  | O => true
  | S k => patchable a && all_patchable (a + 1) k
  end.

(** Modelled from the spec: the engine's state: process memory, the hook
    registry ("initialized empty at process/module load"), the trampolines it
    has allocated and the address of the next one (a trampoline address is
    never used twice). *)
Record state := {
  mem : memory;
  registry : list HookRecord;
  trampolines : gmap Z (list byte);
  next_trampoline : Z
}.

Definition at_load (m : memory) (first_trampoline : Z) : state :=
  {| mem := m; registry := []; trampolines := ∅;
     next_trampoline := first_trampoline |}.

(** Modelled from the spec: the Hook Registry's [lookup], [insert] and
    [erase], keyed by [target_address]; [insert] on an existing active key
    is rejected. *)
Module Registry.

Definition is_hook_of (target : Z) (r : HookRecord) : bool :=
  active r && (target_address r =? target).

Definition lookup (target : Z) (reg : list HookRecord) : option HookRecord :=
  find (is_hook_of target) reg.

Definition insert (r : HookRecord) (reg : list HookRecord)
  : option (list HookRecord) :=
  match lookup (target_address r) reg with
  | Some _ => None
  | None => Some (r :: reg)
  end.

Definition erase (target : Z) (reg : list HookRecord) : list HookRecord :=
  filter (fun r => is_hook_of target r = false) reg.

End Registry.

Section Operations.
Context {platform : Platform}.

(** Modelled from the spec: the bytes written over the target: "an
    unconditional branch to [replacement], padding any leftover bytes with
    no-op instructions". *)
Definition patch_bytes (target replacement : Z) (n : nat) : list byte :=
  branch_to target replacement
  ++ nop_fill (n - length (branch_to target replacement)).

(** Modelled from the spec: the trampoline's code: the relocated original
    instructions, then a jump back to the first instruction after the
    patched region. *)
Definition trampoline_code (target tramp : Z) (n : nat) (moved : list byte)
  : list byte :=
  moved ++ branch_to (tramp + Z.of_nat (length moved)) (target + Z.of_nat n).

(** Modelled from the spec: [install(target, replacement)] of the Code
    Patcher, composed with the registry by the Hook Facade: it returns the
    trampoline address, or fails and leaves the state as it was. *)
Definition install (target replacement : Z) (e : state) : result Z * state :=
  match Registry.lookup target (registry e) with
  | Some _ => (Err AlreadyHooked, e)
  | None =>
  if negb (executable target && executable replacement)
  then (Err InvalidAddress, e) else
  match split_point (mem e) target (length (branch_to target replacement)) with
  | None => (Err UnsupportedInstruction, e)
  | Some n =>
  match read_bytes (mem e) target n with
  | None => (Err InvalidAddress, e)
  | Some original =>
  match relocate target (next_trampoline e) original with
  | None => (Err UnsupportedInstruction, e)
  | Some moved =>
  if negb (all_patchable target n) then (Err ProtectionDenied, e) else
  let tramp := next_trampoline e in
  let code := trampoline_code target tramp n moved in
  let r := {| target_address := target; original_bytes := original;
              trampoline_address := tramp;
              replacement_address := replacement; active := true |} in
  match Registry.insert r (registry e) with
  | None => (Err AlreadyHooked, e)
  | Some reg =>
      (Ok tramp,
       {| mem := write_bytes (mem e) target (patch_bytes target replacement n);
          registry := reg;
          trampolines := <[tramp := code]> (trampolines e);
          next_trampoline := tramp + Z.of_nat (length code) |})
  end end end end end.

(** Modelled from the spec: [remove(target)]: "restores the original bytes
    at [target] from the matching [HookRecord], frees the trampoline, and
    removes the record"; it fails with [NotHooked] when the target has no
    active record. *)
Definition remove (target : Z) (e : state) : result unit * state :=
  match Registry.lookup target (registry e) with
  | None => (Err NotHooked, e)
  | Some r =>
      (Ok tt,
       {| mem := write_bytes (mem e) target (original_bytes r);
          registry := Registry.erase target (registry e);
          trampolines := delete (trampoline_address r) (trampolines e);
          next_trampoline := next_trampoline e |})
  end.

(** Modelled from the spec: where a call goes.  A call through a hooked
    target runs the replacement ("redirection of control flow from a target
    function to a replacement function"); a call of a live trampoline runs
    the original code of its target; any other call runs the code at the
    address. *)
Inductive destination :=
| Replacement (a : Z)     (* the replacement function at [a] *)
| Original (a : Z).       (* the original code of the function at [a] *)

Definition trampoline_of (p : Z) (reg : list HookRecord) : option HookRecord :=
  find (fun r => active r && (trampoline_address r =? p)) reg.

Definition call_through (e : state) (a : Z) : destination :=
  match Registry.lookup a (registry e) with
  | Some r => Replacement (replacement_address r)
  | None =>
      match trampoline_of a (registry e) with
      | Some r => Original (target_address r)
      | None => Original a
      end
  end.

(** The states the engine can be in: those reached from load by [install]
    and [remove]. *)
Inductive reachable : state -> Prop :=
| reachable_load m first : reachable (at_load m first)
| reachable_install target replacement e :
    reachable e -> reachable (install target replacement e).2
| reachable_remove target e :
    reachable e -> reachable (remove target e).2.

(** At most one active record per target address. *)
Definition one_hook_per_target (reg : list HookRecord) : Prop :=
  NoDup (target_address <$> filter (fun r => active r = true) reg).

End Operations.

End HookEngine.

(** ** A small machine to run the hooks on

    A process with a few x86 instructions, on which the engine and the
    module can be run together: [mov eax, imm32] (B8), [jmp rel32] (E9),
    [nop] (90) and [ret] (C3).  Whether a call reaches the original code or
    the replacement is decided by the bytes in memory. *)

Module Machine.
Import Demo HookEngine.

Definition byte_of (z : Z) : byte :=
  default Byte.x00 (Byte.of_N (Z.to_N (z mod 256))).

Definition unsigned (b : byte) : Z := Z.of_N (Byte.to_N b).

Definition le32 (z : Z) : list byte :=
  [byte_of z; byte_of (z / 2 ^ 8); byte_of (z / 2 ^ 16); byte_of (z / 2 ^ 24)].

Definition signed32 (u : Z) : Z := if u <? 2 ^ 31 then u else u - 2 ^ 32.

Definition insn_length (b : byte) : option nat :=
  match b with
  | Byte.xb8 | Byte.xe9 => Some 5%nat
  | Byte.x90 | Byte.xc3 => Some 1%nat
  | _ => None
  end.

(** The length of the whole instructions from [a] that cover [need] bytes. *)
Fixpoint scan (m : memory) (a : Z) (need fuel : nat) : option nat :=
  match need, fuel with
  | O, _ => Some O
  | _, O => None
  | _, S k =>
      match m !! a with
      | None => None
      | Some b =>
          match insn_length b with
          | None => None
          | Some len =>
              match scan m (a + Z.of_nat len) (need - len) k with
              | None => None
              | Some rest => Some (len + rest)%nat
              end
          end
      end
  end.

Lemma scan_covers m fuel a need n : scan m a need fuel = Some n -> (need <= n)%nat.
Proof.
  revert a need n; induction fuel as [|k IH]; intros a need n;
    destruct need as [|need']; simpl; try (intros [= <-]; lia); try discriminate.
  destruct (m !! a) as [b|]; [|discriminate].
  destruct (insn_length b) as [len|]; [|discriminate].
  destruct (scan m (a + Z.of_nat len) (S need' - len) k) as [rest|] eqn:Hs;
    [|discriminate].
  intros [= <-]. apply IH in Hs. lia.
Qed.

(** The engine on this machine: code lives in [0x1000, 0x3000), a branch is
    [jmp rel32], and only code without a relative branch is moved. *)
#[export] Instance x86 : Platform := {|
  executable a := (0x1000 <=? a) && (a <? 0x3000);
  patchable a := (0x1000 <=? a) && (a <? 0x3000);
  branch_to from to := Byte.xe9 :: le32 (to - (from + 5));
  nop_fill k := replicate k Byte.x90;
  split_point m target k := scan m target k k;
  relocate _ _ code :=
    if existsb (Byte.eqb Byte.xe9) code then None
    else Some code;
  nop_fill_length k := length_replicate k Byte.x90;
  split_point_covers m target k n := scan_covers m k target k n
|}.

(** Where the linker has put the module and the C library. *)
Definition address_of (p : pointer) : Z :=
  match p with
  | nullptr => 0
  | Extern a => a
  | Symbol _ => 0x5000
  | Fn F_fake => 0x2000
  | Fn F_fake_fopen => 0x2010
  | Fn F_fake_FindClass => 0x2020
  | Fn F_on_library_loaded => 0x2030
  | Fn F_JNI_OnLoad => 0x2040
  | Fn F_native_init => 0x2050
  | Slot S_backup => 0x6000
  | Slot S_backup_fopen => 0x6008
  | Slot S_backup_FindClass => 0x6010
  end.

Definition hook_capability : pointer := Extern 0x7000.
Definition unhook_capability : pointer := Extern 0x7010.
Definition target_fun : Z := 0x1000.

(** Modelled from the spec: the host's hook capability, which is not among
    the sources, is the engine's [install] ("installs a hook, returns the
    trampoline/original-caller address"); by [native_api.hpp] it returns 0 on
    success, having stored the address to call the original through
    [backup].  [call] runs the code at an address. *)
Definition machine_host (call : Z -> state -> option Z) : Host state := {|
  call_hook f func replace _ e :=
    if decide (f = hook_capability) then
      match install (address_of func) (address_of replace) e with
      | (Ok tramp, e1) => Some (0, Some (Extern tramp), e1)
      | (Err _, e1) => Some (-1, None, e1)
      end
    else None;
  call_dlsym _ symbol e :=
    if String.eqb symbol "target_fun" then (Extern target_fun, e)
    else (nullptr, e);
  call_int p e :=
    match call (address_of p) e with
    | Some r => Some (r, e)
    | None => None
    end;
  call_fopen _ _ _ _ := None;
  call_FindClass _ _ _ _ := None
|}.

(** The byte at [pc]: in process memory, or in a trampoline. *)
Definition trampoline_byte (ts : gmap Z (list byte)) (pc : Z) : option byte :=
  map_fold (fun base code found =>
              match found with
              | Some b => Some b
              | None =>
                  if base <=? pc then code !! Z.to_nat (pc - base) else None
              end) None ts.

Definition fetch (e : state) (pc : Z) : option byte :=
  match mem e !! pc with
  | Some b => Some b
  | None => trampoline_byte (trampolines e) pc
  end.

Definition fetch32 (e : state) (a : Z) : option Z :=
  match fetch e a, fetch e (a + 1), fetch e (a + 2), fetch e (a + 3) with
  | Some b0, Some b1, Some b2, Some b3 =>
      Some (unsigned b0 + 2 ^ 8 * unsigned b1 + 2 ^ 16 * unsigned b2
            + 2 ^ 24 * unsigned b3)
  | _, _, _, _ => None
  end.

(** A call of the function at [pc], which takes nothing and returns an
    [int]: the value it returns.
    Control that reaches the address of [fake] runs [fake], whose own call
    through [backup] runs on the same machine. *)
Fixpoint exec (fuel : nat) (g : globals) (pc eax : Z) (e : state) : option Z :=
  match fuel with
  | O => None
  | S k =>
      if pc =? address_of (Fn F_fake) then
        match fake (host := machine_host (fun a e' => exec k g a 0 e'))
                {| module := g; host_state := e; trace := [] |} with
        | Returns r _ => Some r
        | Faults _ => None
        end
      else
        match fetch e pc with
        | Some Byte.xb8 =>
            match fetch32 e (pc + 1) with
            | Some imm => exec k g (pc + 5) (signed32 imm) e
            | None => None
            end
        | Some Byte.xe9 =>
            match fetch32 e (pc + 1) with
            | Some rel => exec k g (pc + 5 + signed32 rel) eax e
            | None => None
            end
        | Some Byte.x90 => exec k g (pc + 1) eax e
        | Some Byte.xc3 => Some eax
        | _ => None
        end
  end.

Definition call_function (fuel : nat) (g : globals) (e : state) (a : Z)
  : option Z :=
  exec fuel g a 0 e.

(** The host while the entry points of the module run: they call the hook
    capability and [dlsym], and no code of the process. *)
Definition loader_host : Host state := machine_host (fun _ _ => None).

(** [int f() { return 41; }] at [target_fun]: [mov eax, 41; ret]. *)
Definition text : memory :=
  write_bytes ∅ target_fun
    [Byte.xb8; Byte.x29; Byte.x00; Byte.x00; Byte.x00; Byte.xc3].

Definition process_at_load : world state :=
  {| module := globals_at_load;
     host_state := at_load text 0x4000;
     trace := [] |}.

Definition entries : NativeAPIEntries :=
  {| version := 2; hookFunc := hook_capability;
     unhookFunc := unhook_capability |}.

(** The process after [native_init], then after the load of a library
    named libtarget.so, then with the hook on [target_fun] removed again by
    the host. *)
Definition world_after {A} (o : outcome state A) (otherwise : world state)
  : world state :=
  match o with
  | Returns _ w => w
  | Faults _ => otherwise
  end.

Definition process_initialised : world state :=
  world_after (native_init (host := loader_host) entries process_at_load)
    process_at_load.

Definition process_hooked : world state :=
  world_after
    (on_library_loaded (host := loader_host) "/system/lib64/libtarget.so"
       (Extern 1) process_initialised)
    process_initialised.

Definition engine_unhooked : state :=
  (remove target_fun (host_state process_hooked)).2.

End Machine.

(** ** Runs of the module: sequences of calls, frames and hosts

    Definitions for what the functions of demo.cpp do over several calls and
    to the globals they are not concerned with. *)

Module Runs.
Import Demo.

(** The value of the global behind a [backup] slot. *)
Definition load (s : backup_slot) (g : globals) : pointer :=
  match s with
  | S_backup => backup g
  | S_backup_fopen => backup_fopen g
  | S_backup_FindClass => backup_FindClass g
  end.

(** The global whose address each function passes to the hook function
    (demo.cpp, lines 122, 144-145 and 186); the replacements pass none. *)
Definition slot_passed (c : entry) : option backup_slot :=
  match c with
  | Call_native_init _ => Some S_backup_fopen
  | Call_JNI_OnLoad _ _ => Some S_backup_FindClass
  | Call_on_library_loaded _ _ => Some S_backup
  | Call_fake | Call_fake_fopen _ _ | Call_fake_FindClass _ _ => None
  end.

(** The calls that reach a hook installation: [native_init], [JNI_OnLoad],
    and [on_library_loaded] on a name that passes its test. *)
Definition installs (c : entry) : bool :=
  match c with
  | Call_native_init _ | Call_JNI_OnLoad _ _ => true
  | Call_on_library_loaded name _ => CStr.ends_with name "libtarget.so"
  | Call_fake | Call_fake_fopen _ _ | Call_fake_FindClass _ _ => false
  end.

(** The global whose address a call does hand to the hook function: the
    one of [slot_passed] when the call reaches its hook installation, none
    when it does not. *)
Definition slot_hooked (c : entry) : option backup_slot :=
  if installs c then slot_passed c else None.

(** The function of the module each call runs. *)
Definition function_of (c : entry) : module_function :=
  match c with
  | Call_fake => F_fake
  | Call_fake_fopen _ _ => F_fake_fopen
  | Call_fake_FindClass _ _ => F_fake_FindClass
  | Call_on_library_loaded _ _ => F_on_library_loaded
  | Call_JNI_OnLoad _ _ => F_JNI_OnLoad
  | Call_native_init _ => F_native_init
  end.

(** The global through which each replacement calls the original
    (demo.cpp, lines 53, 77 and 102). *)
Definition calls_through (f : module_function) : option backup_slot :=
  match f with
  | F_fake => Some S_backup
  | F_fake_fopen => Some S_backup_fopen
  | F_fake_FindClass => Some S_backup_FindClass
  | F_on_library_loaded | F_JNI_OnLoad | F_native_init => None
  end.

(** The pointers through which the originals were called. *)
Fixpoint original_callees (evs : list event) : list pointer :=
  match evs with
  | [] => []
  | EvCallInt callee :: rest => callee :: original_callees rest
  | EvFopen callee _ _ :: rest => callee :: original_callees rest
  | EvFindClass callee _ _ :: rest => callee :: original_callees rest
  | _ :: rest => original_callees rest
  end.

(** A hook call pairs a replacement with the global it calls through. *)
Definition well_paired (h : pointer * pointer * pointer) : Prop :=
  exists f s, h.1.2 = Fn f /\ h.2 = Slot s /\ calls_through f = Some s.

(** What a [HookFunType] call leaves behind once its status is dropped. *)
Definition forget_status {H : Type} (o : option (Z * option pointer * H))
  : option (option pointer * H) :=
  match o with
  | Some (_, written, h) => Some (written, h)
  | None => None
  end.

(** Two hosts that differ at most in the status their hook function
    returns. *)
Definition same_but_status {H : Type} (host1 host2 : Host H) : Prop :=
  (forall f func replace b h,
     forget_status (call_hook (Host := host1) f func replace b h)
     = forget_status (call_hook (Host := host2) f func replace b h)) /\
  (forall handle symbol h,
     call_dlsym (Host := host1) handle symbol h
     = call_dlsym (Host := host2) handle symbol h) /\
  (forall p h, call_int (Host := host1) p h = call_int (Host := host2) p h) /\
  (forall p filename mode h,
     call_fopen (Host := host1) p filename mode h
     = call_fopen (Host := host2) p filename mode h) /\
  (forall p env name h,
     call_FindClass (Host := host1) p env name h
     = call_FindClass (Host := host2) p env name h).

Section Runs_defs.
Context {H : Type} {host : Host H}.

(** Calls of the module one after the other, as the host and the runtime
    make them; the first fault ends the sequence. *)
Fixpoint run_all (cs : list entry) : M H (list value) :=
  match cs with
  | [] => mret []
  | c :: rest =>
      v ← run c;
      vs ← run_all rest;
      mret (v :: vs)
  end.

(** The worlds in which [native_init] has returned: any number of further
    calls of the module have returned since, and the host has done anything
    to its own state. *)
Inductive initialised : world H -> Prop :=
| initialised_by entries w r w' :
    native_init entries w = Returns r w' -> initialised w'
| initialised_run c w v w' :
    initialised w -> run c w = Returns v w' -> initialised w'
| initialised_host w h :
    initialised w ->
    initialised {| module := module w; host_state := h; trace := trace w |}.

End Runs_defs.

(** Globals with a different pointer in each. *)
Definition distinct_globals : globals :=
  {| hook_func := Extern 256; backup := Extern 11;
     backup_fopen := Extern 22; backup_FindClass := Extern 33 |}.

(** A day in the life of the module: initialisation, [JNI_OnLoad], four
    library loads of which two match, and calls that reach the
    replacements. *)
Definition busy_day : list entry :=
  [Call_native_init table;
   Call_JNI_OnLoad jvm_with_env nullptr;
   Call_on_library_loaded "/system/lib64/libc.so" (Extern 1);
   Call_on_library_loaded "/data/app/lib/libtarget.so" (Extern 2);
   Call_fake;
   Call_fake_fopen "/proc/self/maps" "r";
   Call_on_library_loaded "" (Extern 3);
   Call_on_library_loaded "/data/app/lib/libtarget.so" (Extern 2);
   Call_fake_FindClass None "java/lang/String"].

(** Calls that hand no [&backup] to the hook function: library loads that do
    not match, [JNI_OnLoad] and the replacements. *)
Definition other_calls : list entry :=
  [Call_on_library_loaded "/system/lib64/libc.so" (Extern 1);
   Call_fake;
   Call_JNI_OnLoad jvm_with_env nullptr;
   Call_on_library_loaded "" (Extern 3);
   Call_fake_fopen "/proc/self/maps" "r";
   Call_native_init table;
   Call_on_library_loaded "/data/app/lib/libtarget.so.1" (Extern 2)].

(** A host like [fixed_host] whose hook function reports failure. *)
Definition failing_status_host : Host unit := {|
  call_hook _ _ _ _ h := Some (-1, Some (Extern 4096), h);
  call_dlsym _ _ h := (Extern 8192, h);
  call_int _ h := Some (41, h);
  call_fopen _ _ _ h := Some (Extern 12288, h);
  call_FindClass _ _ _ h := Some (Extern 16384, h)
|}.

(** A host in which no library exports "target_fun" and no hook can be
    installed. *)
Definition bare_host : Host unit := {|
  call_hook _ _ _ _ h := Some (-1, None, h);
  call_dlsym _ _ h := (nullptr, h);
  call_int _ h := Some (2147483647, h);
  call_fopen _ _ _ h := Some (nullptr, h);
  call_FindClass _ _ _ h := Some (nullptr, h)
|}.

End Runs.

(** ** Facts about the string functions *)

Module CStrFacts.
Import CStr.

Lemma is_prefix_spec n h : is_prefix n h = true <-> exists post, h = n +:+ post.
Proof.
  revert h; induction n as [|c n IH]; intros h; simpl.
  - split; [intros _; exists h; reflexivity | reflexivity].
  - destruct h as [|d h].
    + split; [discriminate | intros [post Hp]; discriminate].
    + rewrite andb_true_iff, Ascii.eqb_eq, IH. split.
      * intros [-> [post ->]]. exists post. reflexivity.
      * intros [post Hp]. injection Hp as -> ->. eauto.
Qed.

Lemma strstr_some haystack needle k :
  strstr haystack needle = Some k ->
  exists pre post,
    haystack = pre +:+ needle +:+ post /\ String.length pre = k.
Proof.
  revert k; induction haystack as [|c rest IH]; intros k; simpl.
  - destruct (is_prefix needle EmptyString) eqn:Hp; [|discriminate].
    intros [= <-]. apply is_prefix_spec in Hp as [post Hp].
    exists EmptyString, post. split; [exact Hp | reflexivity].
  - destruct (is_prefix needle (String c rest)) eqn:Hp.
    + intros [= <-]. apply is_prefix_spec in Hp as [post Hp].
      exists EmptyString, post. split; [exact Hp | reflexivity].
    + destruct (strstr rest needle) as [j|] eqn:Hj; [|discriminate].
      simpl. intros [= <-].
      destruct (IH j eq_refl) as (pre & post & -> & <-).
      exists (String c pre), post. split; reflexivity.
Qed.

Lemma strstr_none haystack needle :
  strstr haystack needle = None -> ~ contains haystack needle.
Proof.
  induction haystack as [|c rest IH]; simpl.
  - destruct (is_prefix needle EmptyString) eqn:Hp; [discriminate|].
    intros _ (pre & post & Heq).
    destruct pre; [|discriminate]. simpl in Heq.
    assert (is_prefix needle EmptyString = true) as Ht
      by (apply is_prefix_spec; eauto).
    congruence.
  - destruct (is_prefix needle (String c rest)) eqn:Hp; [discriminate|].
    destruct (strstr rest needle) eqn:Hr; [discriminate|].
    intros _ (pre & post & Heq). destruct pre as [|d pre]; simpl in Heq.
    + assert (is_prefix needle (String c rest) = true) as Ht
        by (apply is_prefix_spec; eauto).
      congruence.
    + injection Heq as -> ->. apply IH; [reflexivity|].
      exists pre, post. reflexivity.
Qed.

(** [strstr] finds the needle exactly when the haystack contains it. *)
Lemma strstr_contains haystack needle :
  is_Some (strstr haystack needle) <-> contains haystack needle.
Proof.
  split.
  - intros [k Hk]. apply strstr_some in Hk as (pre & post & -> & _).
    exists pre, post. reflexivity.
  - intros Hc. destruct (strstr haystack needle) eqn:Hs; [eauto|].
    exfalso. eapply strstr_none; eauto.
Qed.

Lemma strcmp_eq a b : strcmp a b = 0 <-> a = b.
Proof.
  revert b; induction a as [|c a IH]; intros [|d b]; simpl;
    try (split; [lia | discriminate]); [tauto|].
  destruct (Ascii.eqb c d) eqn:Hcd.
  - apply Ascii.eqb_eq in Hcd as ->. rewrite IH.
    split; [intros ->; reflexivity | intros [= ->]; reflexivity].
  - apply Ascii.eqb_neq in Hcd.
    split; [destruct (_ <? _)%N; lia | intros [= -> ->]; contradiction].
Qed.

Lemma drop_chars_app pre x :
  drop_chars (String.length pre) (pre +:+ x) = x.
Proof. induction pre as [|c pre IH]; simpl; [destruct x|]; auto. Qed.

Lemma length_app (a b : string) :
  String.length (a +:+ b) = (String.length a + String.length b)%nat.
Proof. induction a as [|c a IH]; simpl; [|rewrite IH]; reflexivity. Qed.

Lemma drop_chars_split k s :
  (k <= String.length s)%nat ->
  exists pre, s = pre +:+ drop_chars k s /\ String.length pre = k.
Proof.
  revert s; induction k as [|k IH]; intros s Hk.
  - exists EmptyString. split; [destruct s|]; reflexivity.
  - destruct s as [|c s]; simpl in Hk; [lia|].
    destruct (IH s ltac:(lia)) as (pre & Hs & Hl).
    exists (String c pre). split; [|simpl; lia].
    change (String c s = String c (pre +:+ drop_chars k s)).
    f_equal. exact Hs.
Qed.

(** [ends_with] holds exactly of the strings that end in the suffix. *)
Lemma ends_with_spec s x : ends_with s x = true <-> has_suffix s x.
Proof.
  unfold ends_with, has_suffix.
  rewrite andb_true_iff, Nat.leb_le, Z.eqb_eq, strcmp_eq. split.
  - intros [Hle Hd].
    destruct (drop_chars_split (String.length s - String.length x) s)
      as (pre & Hs & _); [lia|].
    exists pre. congruence.
  - intros [pre ->]. rewrite length_app.
    replace (String.length pre + String.length x - String.length x)%nat
      with (String.length pre) by lia.
    split; [lia | apply drop_chars_app].
Qed.

End CStrFacts.

(** ** The functions of demo.cpp *)

Module DemoSpec.
Import CStr Demo.

Ltac unfold_M :=
  unfold fmap, M_fmap in *;
  unfold mbind, M_bind, mret, M_ret, get_globals, put_globals,
    emit, throw, LOGD in *.

Section Module_facts.
Context {H : Type} {host : Host H}.

Lemma external_returns {A} callee e (f : H -> option (A * H)) (w : world H) a h' :
  callee <> nullptr ->
  f (host_state w) = Some (a, h') ->
  external callee e f w =
  Returns a {| module := module w; host_state := h'; trace := trace w ++ [e] |}.
Proof.
  intros Hn Hf. unfold external. rewrite decide_False by exact Hn.
  rewrite Hf. reflexivity.
Qed.

Lemma external_null {A} e (f : H -> option (A * H)) (w : world H) :
  external nullptr e f w = Faults NullCall.
Proof. reflexivity. Qed.

Lemma external_inv {A} callee e (f : H -> option (A * H)) (w w' : world H) a :
  external callee e f w = Returns a w' ->
  callee <> nullptr /\
  f (host_state w) = Some (a, host_state w') /\
  module w' = module w /\ trace w' = trace w ++ [e].
Proof.
  unfold external. destruct (decide (callee = nullptr)); [discriminate|].
  destruct (f (host_state w)) as [[a' h']|]; [|discriminate].
  intros [= <- <-]. auto.
Qed.

(** C1: [fake_fopen] returns the null pointer, without calling anything,
    whenever the filename contains "banned" ("banned.txt" does); for every
    other filename ("ok.txt" is one) it is the call of [backup_fopen] on the
    same filename and mode, and returns what that call returns. *)
Theorem fake_fopen_spec (filename mode : string) (w : world H) :
  (contains filename "banned" ->
   fake_fopen filename mode w = Returns nullptr w) /\
  (~ contains filename "banned" ->
   fake_fopen filename mode w =
     external (backup_fopen (module w))
       (EvFopen (backup_fopen (module w)) filename mode)
       (call_fopen (backup_fopen (module w)) filename mode) w) /\
  (~ contains filename "banned" ->
   forall r h',
     backup_fopen (module w) <> nullptr ->
     call_fopen (backup_fopen (module w)) filename mode (host_state w)
       = Some (r, h') ->
     fake_fopen filename mode w =
       Returns r {| module := module w; host_state := h';
                    trace := trace w ++
                      [EvFopen (backup_fopen (module w)) filename mode] |}) /\
  fake_fopen "banned.txt" mode w = Returns nullptr w /\
  fake_fopen "ok.txt" mode w =
    external (backup_fopen (module w))
      (EvFopen (backup_fopen (module w)) "ok.txt" mode)
      (call_fopen (backup_fopen (module w)) "ok.txt" mode) w.
Proof.
  assert (Hyes : contains filename "banned" ->
                 fake_fopen filename mode w = Returns nullptr w).
  { intros Hc. apply CStrFacts.strstr_contains in Hc as [k Hk].
    unfold fake_fopen. rewrite Hk. reflexivity. }
  assert (Hno : ~ contains filename "banned" ->
                fake_fopen filename mode w =
                external (backup_fopen (module w))
                  (EvFopen (backup_fopen (module w)) filename mode)
                  (call_fopen (backup_fopen (module w)) filename mode) w).
  { intros Hc. unfold fake_fopen.
    destruct (strstr filename "banned") as [k|] eqn:Hk; [|reflexivity].
    exfalso. apply Hc, CStrFacts.strstr_contains. eauto. }
  repeat split; try assumption; try reflexivity.
  intros Hc r h' Hn Hcall. rewrite (Hno Hc).
  apply external_returns; assumption.
Qed.

(** C9: [fake_FindClass] returns the null class, without calling anything,
    exactly when the name equals "dalvik/system/BaseDexClassLoader"; a name
    that merely contains it is passed on; for every other name it is the call
    of [backup_FindClass] on the same environment and name. *)
Theorem fake_FindClass_spec (env : option JNIEnv) (name : string) (w : world H) :
  (name = "dalvik/system/BaseDexClassLoader" ->
   fake_FindClass env name w = Returns nullptr w) /\
  (name <> "dalvik/system/BaseDexClassLoader" ->
   fake_FindClass env name w =
     external (backup_FindClass (module w))
       (EvFindClass (backup_FindClass (module w)) env name)
       (call_FindClass (backup_FindClass (module w)) env name) w) /\
  (name <> "dalvik/system/BaseDexClassLoader" ->
   forall r h',
     backup_FindClass (module w) <> nullptr ->
     call_FindClass (backup_FindClass (module w)) env name (host_state w)
       = Some (r, h') ->
     fake_FindClass env name w =
       Returns r {| module := module w; host_state := h';
                    trace := trace w ++
                      [EvFindClass (backup_FindClass (module w)) env name] |}) /\
  fake_FindClass env "dalvik/system/BaseDexClassLoader$Inner" w =
    external (backup_FindClass (module w))
      (EvFindClass (backup_FindClass (module w)) env
         "dalvik/system/BaseDexClassLoader$Inner")
      (call_FindClass (backup_FindClass (module w)) env
         "dalvik/system/BaseDexClassLoader$Inner") w.
Proof.
  assert (Hno : name <> "dalvik/system/BaseDexClassLoader" ->
     fake_FindClass env name w =
     external (backup_FindClass (module w))
       (EvFindClass (backup_FindClass (module w)) env name)
       (call_FindClass (backup_FindClass (module w)) env name) w).
  { intros Hne. unfold fake_FindClass.
    destruct (Z.eqb_spec (strcmp name "dalvik/system/BaseDexClassLoader") 0)
      as [He|He]; [|reflexivity].
    apply CStrFacts.strcmp_eq in He. contradiction. }
  repeat split.
  - intros ->. reflexivity.
  - exact Hno.
  - intros Hne r h' Hn Hcall. rewrite (Hno Hne).
    apply external_returns; assumption.
Qed.

Lemma hook_func_store s p g : hook_func (store s p g) = hook_func g.
Proof. destruct s; reflexivity. Qed.

Lemma hook_func_slot_after s o g : hook_func (slot_after s o g) = hook_func g.
Proof. destruct o; [apply hook_func_store | reflexivity]. Qed.

Lemma call_HookFunType_returns f func replace s (w : world H) st wr h' :
  f <> nullptr ->
  call_hook f func replace (Slot s) (host_state w) = Some (st, wr, h') ->
  call_HookFunType f func replace s w =
  Returns st {| module := slot_after s wr (module w); host_state := h';
                trace := trace w ++ [EvHook f func replace (Slot s)] |}.
Proof.
  intros Hn Hc. unfold call_HookFunType. unfold_M.
  erewrite external_returns by eauto. destruct wr; reflexivity.
Qed.

Lemma call_HookFunType_null func replace s (w : world H) :
  call_HookFunType nullptr func replace s w = Faults NullCall.
Proof. reflexivity. Qed.

Lemma call_HookFunType_inv f func replace s (w w' : world H) st :
  call_HookFunType f func replace s w = Returns st w' ->
  f <> nullptr /\
  exists wr,
    call_hook f func replace (Slot s) (host_state w)
      = Some (st, wr, host_state w') /\
    module w' = slot_after s wr (module w) /\
    trace w' = trace w ++ [EvHook f func replace (Slot s)].
Proof.
  unfold call_HookFunType. unfold_M.
  destruct (external f _ _ w) as [[st' wr] w1|] eqn:He; [|discriminate].
  apply external_inv in He as (Hn & Hc & Hm & Ht).
  destruct wr as [p|]; simpl; intros [= <- <-]; simpl;
    (split; [exact Hn|]); [exists (Some p) | exists None]; simpl;
    rewrite Hc, Hm, Ht; auto.
Qed.

(** *** What each entry point does when it returns *)

Lemma native_init_returns entries (w : world H) st wr h' :
  hookFunc entries <> nullptr ->
  call_hook (hookFunc entries) (Symbol "fopen") (Fn F_fake_fopen)
    (Slot S_backup_fopen) (host_state w) = Some (st, wr, h') ->
  native_init entries w =
  Returns (Fn F_on_library_loaded)
    {| module := slot_after S_backup_fopen wr
                   (set_hook_func (hookFunc entries) (module w));
       host_state := h';
       trace := trace w ++
         [EvLog "NativeOnModuleLoaded called";
          EvHook (hookFunc entries) (Symbol "fopen") (Fn F_fake_fopen)
            (Slot S_backup_fopen)] |}.
Proof.
  intros Hn Hc. unfold native_init. unfold_M. simpl.
  erewrite call_HookFunType_returns by eauto. simpl.
  rewrite <- app_assoc. reflexivity.
Qed.

Lemma native_init_inv entries (w w' : world H) r :
  native_init entries w = Returns r w' ->
  r = Fn F_on_library_loaded /\
  hookFunc entries <> nullptr /\
  exists st wr,
    call_hook (hookFunc entries) (Symbol "fopen") (Fn F_fake_fopen)
      (Slot S_backup_fopen) (host_state w) = Some (st, wr, host_state w') /\
    w' = {| module := slot_after S_backup_fopen wr
                        (set_hook_func (hookFunc entries) (module w));
            host_state := host_state w';
            trace := trace w ++
              [EvLog "NativeOnModuleLoaded called";
               EvHook (hookFunc entries) (Symbol "fopen") (Fn F_fake_fopen)
                 (Slot S_backup_fopen)] |}.
Proof.
  unfold native_init. unfold_M. simpl.
  destruct (call_HookFunType _ _ _ _ _) as [st w1|] eqn:Hc; [|discriminate].
  intros [= <- <-].
  apply call_HookFunType_inv in Hc as (Hn & wr & Hc & Hm & Ht).
  simpl in *. repeat split; [exact Hn|]. exists st, wr. split; [exact Hc|].
  destruct w1 as [m1 h1 t1]; simpl in *. subst m1 t1.
  rewrite <- app_assoc. reflexivity.
Qed.

Lemma JNI_OnLoad_returns jvm reserved env (w : world H) st wr h' :
  (GetEnv jvm JNI_VERSION_1_6).2 = Some env ->
  hook_func (module w) <> nullptr ->
  call_hook (hook_func (module w)) (FindClass (functions env))
    (Fn F_fake_FindClass) (Slot S_backup_FindClass) (host_state w)
    = Some (st, wr, h') ->
  JNI_OnLoad jvm reserved w =
  Returns JNI_VERSION_1_6
    {| module := slot_after S_backup_FindClass wr (module w);
       host_state := h';
       trace := trace w ++
         [EvLog "JNI_OnLoad called"; EvGetEnv JNI_VERSION_1_6;
          EvHook (hook_func (module w)) (FindClass (functions env))
            (Fn F_fake_FindClass) (Slot S_backup_FindClass)] |}.
Proof.
  intros He Hn Hc. unfold JNI_OnLoad. unfold_M. simpl. rewrite He. simpl.
  erewrite call_HookFunType_returns by eauto. simpl.
  rewrite <- !app_assoc. reflexivity.
Qed.

Lemma JNI_OnLoad_inv jvm reserved (w w' : world H) r :
  JNI_OnLoad jvm reserved w = Returns r w' ->
  r = JNI_VERSION_1_6 /\
  hook_func (module w) <> nullptr /\
  exists env st wr,
    (GetEnv jvm JNI_VERSION_1_6).2 = Some env /\
    call_hook (hook_func (module w)) (FindClass (functions env))
      (Fn F_fake_FindClass) (Slot S_backup_FindClass) (host_state w)
      = Some (st, wr, host_state w') /\
    w' = {| module := slot_after S_backup_FindClass wr (module w);
            host_state := host_state w';
            trace := trace w ++
              [EvLog "JNI_OnLoad called"; EvGetEnv JNI_VERSION_1_6;
               EvHook (hook_func (module w)) (FindClass (functions env))
                 (Fn F_fake_FindClass) (Slot S_backup_FindClass)] |}.
Proof.
  unfold JNI_OnLoad. unfold_M. simpl.
  destruct (GetEnv jvm JNI_VERSION_1_6).2 as [env|] eqn:He; [|discriminate].
  simpl.
  destruct (call_HookFunType _ _ _ _ _) as [st w1|] eqn:Hc; [|discriminate].
  intros [= <- <-].
  apply call_HookFunType_inv in Hc as (Hn & wr & Hc & Hm & Ht).
  simpl in *. repeat split; [exact Hn|]. exists env, st, wr.
  repeat split; [exact Hc|].
  destruct w1 as [m1 h1 t1]; simpl in *. subst m1 t1.
  rewrite <- !app_assoc. reflexivity.
Qed.

Lemma on_library_loaded_skips name handle (w : world H) :
  ends_with name "libtarget.so" = false ->
  on_library_loaded name handle w = Returns tt w.
Proof. intros Hs. unfold on_library_loaded. rewrite Hs. reflexivity. Qed.

Lemma on_library_loaded_returns name handle (w : world H) st wr h' :
  ends_with name "libtarget.so" = true ->
  hook_func (module w) <> nullptr ->
  call_hook (hook_func (module w))
    (call_dlsym handle "target_fun" (host_state w)).1 (Fn F_fake)
    (Slot S_backup) (call_dlsym handle "target_fun" (host_state w)).2
    = Some (st, wr, h') ->
  on_library_loaded name handle w =
  Returns tt
    {| module := slot_after S_backup wr (module w);
       host_state := h';
       trace := trace w ++
         [EvDlsym handle "target_fun";
          EvHook (hook_func (module w))
            (call_dlsym handle "target_fun" (host_state w)).1 (Fn F_fake)
            (Slot S_backup)] |}.
Proof.
  intros Hs Hn Hc. unfold on_library_loaded. rewrite Hs. unfold dlsym.
  unfold_M. destruct (call_dlsym handle "target_fun" (host_state w))
    as [target h1] eqn:Hd. simpl in *.
  erewrite call_HookFunType_returns by eauto. simpl.
  rewrite <- app_assoc. reflexivity.
Qed.

Lemma on_library_loaded_inv name handle (w w' : world H) r :
  on_library_loaded name handle w = Returns r w' ->
  (ends_with name "libtarget.so" = false /\ w' = w) \/
  (ends_with name "libtarget.so" = true /\
   hook_func (module w) <> nullptr /\
   exists st wr,
     call_hook (hook_func (module w))
       (call_dlsym handle "target_fun" (host_state w)).1 (Fn F_fake)
       (Slot S_backup) (call_dlsym handle "target_fun" (host_state w)).2
       = Some (st, wr, host_state w') /\
     w' = {| module := slot_after S_backup wr (module w);
             host_state := host_state w';
             trace := trace w ++
               [EvDlsym handle "target_fun";
                EvHook (hook_func (module w))
                  (call_dlsym handle "target_fun" (host_state w)).1
                  (Fn F_fake) (Slot S_backup)] |}).
Proof.
  unfold on_library_loaded.
  destruct (ends_with name "libtarget.so") eqn:Hs.
  - unfold dlsym. unfold_M.
    destruct (call_dlsym handle "target_fun" (host_state w))
      as [target h1] eqn:Hd. simpl.
    destruct (call_HookFunType _ _ _ _ _) as [st w1|] eqn:Hc; [|discriminate].
    intros [= <- <-]. right.
    apply call_HookFunType_inv in Hc as (Hn & wr & Hc & Hm & Ht).
    simpl in *. repeat split; [exact Hn|]. exists st, wr.
    split; [exact Hc|].
    destruct w1 as [m1 h2 t1]; simpl in *. subst m1 t1.
    rewrite <- app_assoc. reflexivity.
  - intros [= <- <-]. left. auto.
Qed.

Lemma fake_returns (w : world H) r h' :
  backup (module w) <> nullptr ->
  call_int (backup (module w)) (host_state w) = Some (r, h') ->
  INT_MIN <= r + 1 <= INT_MAX ->
  fake w = Returns (r + 1)
             {| module := module w; host_state := h';
                trace := trace w ++ [EvCallInt (backup (module w))] |}.
Proof.
  intros Hn Hc Hr. unfold fake. unfold_M. simpl.
  erewrite external_returns by eauto. unfold int_add.
  destruct (Z.leb_spec INT_MIN (r + 1)); [|lia].
  destruct (Z.leb_spec (r + 1) INT_MAX); [|lia]. reflexivity.
Qed.

Lemma fake_inv (w w' : world H) v :
  fake w = Returns v w' ->
  module w' = module w /\
  trace w' = trace w ++ [EvCallInt (backup (module w))] /\
  exists r, call_int (backup (module w)) (host_state w)
              = Some (r, host_state w') /\ v = r + 1.
Proof.
  unfold fake. unfold_M. simpl.
  destruct (external _ _ _ w) as [r w1|] eqn:He; [|discriminate].
  apply external_inv in He as (Hn & Hc & Hm & Ht).
  unfold int_add. destruct (_ && _); [|discriminate].
  intros [= <- <-]. eauto.
Qed.

Lemma fake_fopen_inv filename mode (w w' : world H) v :
  fake_fopen filename mode w = Returns v w' ->
  module w' = module w /\
  (trace w' = trace w \/
   trace w' = trace w ++ [EvFopen (backup_fopen (module w)) filename mode]).
Proof.
  unfold fake_fopen. destruct (strstr filename "banned").
  - intros [= <- <-]. auto.
  - unfold_M. simpl. intros He.
    apply external_inv in He as (Hn & Hc & Hm & Ht). auto.
Qed.

Lemma fake_FindClass_inv env name (w w' : world H) v :
  fake_FindClass env name w = Returns v w' ->
  module w' = module w /\
  (trace w' = trace w \/
   trace w' = trace w ++
     [EvFindClass (backup_FindClass (module w)) env name]).
Proof.
  unfold fake_FindClass. destruct (_ =? 0).
  - intros [= <- <-]. auto.
  - unfold_M. simpl. intros He.
    apply external_inv in He as (Hn & Hc & Hm & Ht). auto.
Qed.

Lemma run_inv (c : entry) (w w' : world H) v :
  run c w = Returns v w' ->
  exists evs,
    trace w' = trace w ++ evs /\
    hook_calls evs = hooks_of c w /\
    Forall (fun p => p = hook_func_after c w) (hook_callees evs) /\
    forallb (fun e => negb (is_unhook e)) evs = true /\
    hook_func (module w') = hook_func_after c w.
Proof.
  destruct c as [|filename mode|env name|name handle|jvm reserved|entries];
    unfold run; unfold_M; simpl.
  - destruct (fake w) as [r w1|] eqn:Hf; simpl; [|discriminate].
    intros [= <- <-]. apply fake_inv in Hf as (Hm & Ht & _).
    eexists. split; [exact Ht|]. rewrite Hm. simpl. auto.
  - destruct (fake_fopen filename mode w) as [r w1|] eqn:Hf; simpl; [|discriminate].
    intros [= <- <-]. apply fake_fopen_inv in Hf as (Hm & [Ht|Ht]).
    + exists []. rewrite app_nil_r, Hm. simpl. auto.
    + eexists. split; [exact Ht|]. rewrite Hm. simpl. auto.
  - destruct (fake_FindClass env name w) as [r w1|] eqn:Hf; simpl; [|discriminate].
    intros [= <- <-]. apply fake_FindClass_inv in Hf as (Hm & [Ht|Ht]).
    + exists []. rewrite app_nil_r, Hm. simpl. auto.
    + eexists. split; [exact Ht|]. rewrite Hm. simpl. auto.
  - destruct (on_library_loaded name handle w) as [r w1|] eqn:Hf;
      simpl; [|discriminate].
    intros [= <- <-].
    apply on_library_loaded_inv in Hf
      as [(Hs & ->)|(Hs & Hn & st & wr & Hc & ->)]; rewrite Hs.
    + exists []. rewrite app_nil_r. simpl. auto.
    + eexists. split; [reflexivity|]. simpl.
      rewrite hook_func_slot_after. auto.
  - destruct (JNI_OnLoad jvm reserved w) as [r w1|] eqn:Hf; simpl; [|discriminate].
    intros [= <- <-].
    apply JNI_OnLoad_inv in Hf as (_ & Hn & env & st & wr & He & Hc & ->).
    rewrite He. eexists. split; [reflexivity|]. simpl.
    rewrite hook_func_slot_after. auto.
  - destruct (native_init entries w) as [r w1|] eqn:Hf; simpl; [|discriminate].
    intros [= <- <-].
    apply native_init_inv in Hf as (_ & Hn & st & wr & Hc & ->).
    eexists. split; [reflexivity|]. simpl.
    rewrite hook_func_slot_after. auto.
Qed.

(** *** The entry points *)

(** C3: every call of [native_init] that returns has saved
    [entries->hookFunc] in the global [hook_func] and returns the address of
    [on_library_loaded], which is not null; and the call does return as soon
    as the table's hook function is callable and returns. *)
Theorem native_init_spec (entries : NativeAPIEntries) (w : world H) :
  (forall r w',
     native_init entries w = Returns r w' ->
     hook_func (module w') = hookFunc entries /\
     r = Fn F_on_library_loaded /\ r <> nullptr) /\
  (forall st wr h',
     hookFunc entries <> nullptr ->
     call_hook (hookFunc entries) (Symbol "fopen") (Fn F_fake_fopen)
       (Slot S_backup_fopen) (host_state w) = Some (st, wr, h') ->
     exists w',
       native_init entries w = Returns (Fn F_on_library_loaded) w' /\
       hook_func (module w') = hookFunc entries).
Proof.
  split.
  - intros r w' Hr. apply native_init_inv in Hr as (-> & _ & st & wr & _ & ->).
    simpl. rewrite hook_func_slot_after. repeat split. discriminate.
  - intros st wr h' Hn Hc. eexists. split.
    + eapply native_init_returns; eassumption.
    + simpl. apply hook_func_slot_after.
Qed.

(** C4: when the name ends with "libtarget.so", [on_library_loaded] resolves
    "target_fun" through the handle and makes one hook call, on the resolved
    address, with replacement [fake] and backup slot [&backup]; when it does
    not, nothing is called and nothing changes.  A returning call has made
    that hook call if and only if the name ends with "libtarget.so". *)
Theorem on_library_loaded_spec (name : string) (handle : pointer) (w : world H) :
  let target := (call_dlsym handle "target_fun" (host_state w)).1 in
  let h1 := (call_dlsym handle "target_fun" (host_state w)).2 in
  (has_suffix name "libtarget.so" ->
   forall st wr h',
     hook_func (module w) <> nullptr ->
     call_hook (hook_func (module w)) target (Fn F_fake) (Slot S_backup) h1
       = Some (st, wr, h') ->
     on_library_loaded name handle w =
     Returns tt
       {| module := slot_after S_backup wr (module w);
          host_state := h';
          trace := trace w ++
            [EvDlsym handle "target_fun";
             EvHook (hook_func (module w)) target (Fn F_fake)
               (Slot S_backup)] |}) /\
  (~ has_suffix name "libtarget.so" ->
   on_library_loaded name handle w = Returns tt w) /\
  (forall r w',
     on_library_loaded name handle w = Returns r w' ->
     exists evs,
       trace w' = trace w ++ evs /\
       (has_suffix name "libtarget.so" <->
        hook_calls evs = [(target, Fn F_fake, Slot S_backup)]) /\
       (~ has_suffix name "libtarget.so" <-> hook_calls evs = [])).
Proof.
  intros target h1. repeat split.
  - intros Hs st wr h' Hn Hc. apply CStrFacts.ends_with_spec in Hs.
    eapply on_library_loaded_returns; eassumption.
  - intros Hs. apply on_library_loaded_skips.
    destruct (ends_with name "libtarget.so") eqn:He; [|reflexivity].
    apply CStrFacts.ends_with_spec in He. contradiction.
  - intros r w' Hr.
    apply on_library_loaded_inv in Hr
      as [(Hs & ->)|(Hs & Hn & st & wr & Hc & ->)].
    + exists []. rewrite app_nil_r. split; [reflexivity|].
      assert (~ has_suffix name "libtarget.so") as Hns.
      { rewrite <- CStrFacts.ends_with_spec. congruence. }
      simpl. split; split; try tauto; discriminate.
    + eexists. split; [reflexivity|].
      apply CStrFacts.ends_with_spec in Hs. simpl.
      split; split; try tauto; discriminate.
Qed.


(** C6: no returning run of a function of the module calls through an
    [UnhookFunType] pointer, and [native_init] does the same whatever the
    table's [unhookFunc] is: the member is neither stored nor called. *)
Theorem module_never_unhooks :
  (forall (c : entry) (w w' : world H) v,
     run c w = Returns v w' ->
     exists evs,
       trace w' = trace w ++ evs /\
       forallb (fun e => negb (is_unhook e)) evs = true) /\
  (forall entries u (w : world H),
     native_init {| version := version entries;
                    hookFunc := hookFunc entries;
                    unhookFunc := u |} w
     = native_init entries w).
Proof.
  split.
  - intros c w w' v Hr. apply run_inv in Hr as (evs & Ht & _ & _ & Hu & _).
    exists evs. auto.
  - intros entries u w. reflexivity.
Qed.

(** C10, as amended: [hook_func] is null at load; a returning run of
    [native_init] leaves [entries->hookFunc] in it and a returning run of any
    other function leaves it as it was; the hook calls of [JNI_OnLoad] and
    [on_library_loaded] go through it; so, while it is null, [JNI_OnLoad]
    (given an environment by [GetEnv]) and [on_library_loaded] on a name
    ending with "libtarget.so" call through a null function pointer;
    [on_library_loaded] on any other name returns, whatever [hook_func]
    holds, with nothing called and nothing changed. *)
Theorem hook_func_lifecycle :
  hook_func globals_at_load = nullptr /\
  (forall (c : entry) (w w' : world H) v,
     run c w = Returns v w' ->
     hook_func (module w') = hook_func_after c w /\
     exists evs,
       trace w' = trace w ++ evs /\
       Forall (fun p => p = hook_func_after c w) (hook_callees evs)) /\
  (forall jvm reserved env (w : world H),
     (GetEnv jvm JNI_VERSION_1_6).2 = Some env ->
     hook_func (module w) = nullptr ->
     JNI_OnLoad jvm reserved w = Faults NullCall) /\
  (forall name handle (w : world H),
     has_suffix name "libtarget.so" ->
     hook_func (module w) = nullptr ->
     on_library_loaded name handle w = Faults NullCall) /\
  (forall name handle (w : world H),
     ~ has_suffix name "libtarget.so" ->
     on_library_loaded name handle w = Returns tt w).
Proof.
  split_and!.
  - reflexivity.
  - intros c w w' v Hr.
    apply run_inv in Hr as (evs & Ht & _ & Hc & _ & Hf). eauto.
  - intros jvm reserved env w He Hn. unfold JNI_OnLoad. unfold_M. simpl.
    rewrite He. simpl. rewrite Hn. reflexivity.
  - intros name handle w Hs Hn. apply CStrFacts.ends_with_spec in Hs.
    unfold on_library_loaded. rewrite Hs. unfold dlsym. unfold_M.
    destruct (call_dlsym _ _ _) as [t h1]. simpl. rewrite Hn. reflexivity.
  - intros name handle w Hs. apply on_library_loaded_skips.
    destruct (ends_with name "libtarget.so") eqn:He; [|reflexivity].
    apply CStrFacts.ends_with_spec in He. contradiction.
Qed.

End Module_facts.

(** *** The theorems on concrete inputs *)

Lemma fake_fopen_spec_witness :
  fake_fopen (host := fixed_host) "/sdcard/banned_list" "r"
    (world_of hooked_globals)
  = Returns nullptr (world_of hooked_globals) /\
  fake_fopen (host := fixed_host) "/sdcard/notes.txt" "r"
    (world_of hooked_globals)
  = Returns (Extern 12288)
      {| module := hooked_globals; host_state := tt;
         trace := [EvFopen (Extern 4096) "/sdcard/notes.txt" "r"] |}.
Proof.
  split.
  - apply (proj1 (fake_fopen_spec (host := fixed_host)
                    "/sdcard/banned_list" "r" (world_of hooked_globals))).
    exists "/sdcard/", "_list". reflexivity.
  - apply (proj1 (proj2 (proj2 (fake_fopen_spec (host := fixed_host)
                    "/sdcard/notes.txt" "r" (world_of hooked_globals))))).
    + apply CStrFacts.strstr_none. reflexivity.
    + discriminate.
    + reflexivity.
Defined.

Lemma fake_FindClass_spec_witness :
  fake_FindClass (host := fixed_host) None "dalvik/system/BaseDexClassLoader"
    (world_of hooked_globals)
  = Returns nullptr (world_of hooked_globals) /\
  fake_FindClass (host := fixed_host) None "dalvik/system/PathClassLoader"
    (world_of hooked_globals)
  = Returns (Extern 16384)
      {| module := hooked_globals; host_state := tt;
         trace := [EvFindClass (Extern 4096) None
                     "dalvik/system/PathClassLoader"] |}.
Proof.
  split.
  - apply (proj1 (fake_FindClass_spec (host := fixed_host) None
                    "dalvik/system/BaseDexClassLoader"
                    (world_of hooked_globals))).
    reflexivity.
  - apply (proj1 (proj2 (proj2 (fake_FindClass_spec (host := fixed_host) None
                    "dalvik/system/PathClassLoader"
                    (world_of hooked_globals))))).
    + discriminate.
    + discriminate.
    + reflexivity.
Defined.

Lemma native_init_spec_witness :
  exists w',
    native_init (host := fixed_host) table (world_of globals_at_load)
    = Returns (Fn F_on_library_loaded) w' /\
    hook_func (module w') = Extern 256.
Proof.
  apply (proj2 (native_init_spec (host := fixed_host) table
                  (world_of globals_at_load)) 0 (Some (Extern 4096)) tt).
  - discriminate.
  - reflexivity.
Defined.

Lemma on_library_loaded_spec_witness :
  on_library_loaded (host := fixed_host) "/vendor/lib64/libtarget.so"
    (Extern 1) (world_of hooked_globals)
  = Returns tt
      {| module := hooked_globals; host_state := tt;
         trace := [EvDlsym (Extern 1) "target_fun";
                   EvHook (Extern 256) (Extern 8192) (Fn F_fake)
                     (Slot S_backup)] |} /\
  on_library_loaded (host := fixed_host) "/vendor/lib64/libtarget.so.1"
    (Extern 1) (world_of hooked_globals)
  = Returns tt (world_of hooked_globals).
Proof.
  split.
  - apply (proj1 (on_library_loaded_spec (host := fixed_host)
                    "/vendor/lib64/libtarget.so" (Extern 1)
                    (world_of hooked_globals))
             ltac:(exists "/vendor/lib64/"; reflexivity)
             0 (Some (Extern 4096)) tt).
    + discriminate.
    + reflexivity.
  - apply (proj1 (proj2 (on_library_loaded_spec (host := fixed_host)
                    "/vendor/lib64/libtarget.so.1" (Extern 1)
                    (world_of hooked_globals)))).
    rewrite <- CStrFacts.ends_with_spec. discriminate.
Defined.


Lemma module_never_unhooks_witness :
  exists evs,
    [EvLog "NativeOnModuleLoaded called";
     EvHook (Extern 256) (Symbol "fopen") (Fn F_fake_fopen)
       (Slot S_backup_fopen)] = evs /\
    forallb (fun e => negb (is_unhook e)) evs = true.
Proof.
  destruct (proj1 (module_never_unhooks (host := fixed_host))
              (Call_native_init table) (world_of globals_at_load) _ _ eq_refl)
    as (evs & Ht & Hu).
  exists evs. split; [exact Ht | exact Hu].
Defined.

Lemma hook_func_lifecycle_witness :
  JNI_OnLoad (host := fixed_host) jvm_with_env nullptr
    (world_of globals_at_load) = Faults NullCall /\
  on_library_loaded (host := fixed_host) "/vendor/lib64/libtarget.so"
    (Extern 1) (world_of globals_at_load) = Faults NullCall /\
  on_library_loaded (host := fixed_host) "/vendor/lib64/libtarget.so.bak"
    (Extern 1) (world_of globals_at_load)
  = Returns tt (world_of globals_at_load).
Proof.
  destruct (hook_func_lifecycle (host := fixed_host))
    as (_ & _ & Hj & Ho & Hother).
  split_and!.
  - apply (Hj jvm_with_env nullptr _ (world_of globals_at_load) eq_refl
             eq_refl).
  - apply (Ho "/vendor/lib64/libtarget.so" (Extern 1)
             (world_of globals_at_load)
             ltac:(exists "/vendor/lib64/"; reflexivity) eq_refl).
  - apply (Hother "/vendor/lib64/libtarget.so.bak" (Extern 1)
             (world_of globals_at_load)).
    rewrite <- CStrFacts.ends_with_spec. discriminate.
Defined.

(** Two runs before [native_init] that call through no null function
    pointer: [on_library_loaded] on a name that does not end with
    "libtarget.so" returns, having called nothing; and [JNI_OnLoad], when
    [GetEnv] has left [env] null, reads through the null [env] before it
    reaches the call. *)
Lemma on_library_loaded_before_native_init :
  hook_func (module (world_of globals_at_load)) = nullptr /\
  on_library_loaded (host := fixed_host) "/system/lib64/libc.so" (Extern 1)
    (world_of globals_at_load)
  = Returns tt (world_of globals_at_load) /\
  trace (world_of globals_at_load) = [] /\
  JNI_OnLoad (host := fixed_host) jvm_without_env nullptr
    (world_of globals_at_load)
  = Faults NullDeref.
Proof. repeat split. Qed.

End DemoSpec.
(** ** The hook engine: installing twice, and installing then removing *)

Module HookEngineSpec.
Import HookEngine.

Lemma write_bytes_lookup (bs : list byte) (m : memory) (a x : Z) :
  write_bytes m a bs !! x =
  if decide (a <= x < a + Z.of_nat (length bs))
  then bs !! Z.to_nat (x - a) else m !! x.
Proof.
  revert m a; induction bs as [|b bs IH]; intros m a; simpl.
  - rewrite decide_False by lia. reflexivity.
  - rewrite IH. destruct (decide (x = a)) as [->|Hne].
    + rewrite decide_False by lia. rewrite decide_True by lia.
      rewrite lookup_insert_eq. replace (a - a) with 0 by lia. reflexivity.
    + rewrite lookup_insert_ne by congruence.
      destruct (decide (a + 1 <= x < a + 1 + Z.of_nat (length bs))).
      * rewrite decide_True by lia.
        replace (Z.to_nat (x - a)) with (S (Z.to_nat (x - (a + 1)))) by lia.
        reflexivity.
      * rewrite decide_False by lia. reflexivity.
Qed.

Lemma read_bytes_length (m : memory) n a bs :
  read_bytes m a n = Some bs -> length bs = n.
Proof.
  revert a bs; induction n as [|n IH]; intros a bs; simpl.
  - intros [= <-]. reflexivity.
  - destruct (m !! a); [|discriminate].
    destruct (read_bytes m (a + 1) n) eqn:Hr; [|discriminate].
    intros [= <-]. simpl. f_equal. eauto.
Qed.

Lemma read_bytes_lookup (m : memory) n a bs x :
  read_bytes m a n = Some bs ->
  a <= x < a + Z.of_nat n ->
  m !! x = bs !! Z.to_nat (x - a).
Proof.
  revert a bs; induction n as [|n IH]; intros a bs; simpl; [lia|].
  destruct (m !! a) as [b|] eqn:Hb; [|discriminate].
  destruct (read_bytes m (a + 1) n) as [rest|] eqn:Hr; [|discriminate].
  intros [= <-] Hx. destruct (decide (x = a)) as [->|Hne].
  - replace (a - a) with 0 by lia. exact Hb.
  - replace (Z.to_nat (x - a)) with (S (Z.to_nat (x - (a + 1)))) by lia.
    simpl. apply IH; [exact Hr | lia].
Qed.

(** Writing back the bytes read before a patch of the same length undoes
    the patch. *)
Lemma write_bytes_restore (m : memory) a n original patch :
  read_bytes m a n = Some original ->
  length patch = n ->
  write_bytes (write_bytes m a patch) a original = m.
Proof.
  intros Hr Hl. pose proof (read_bytes_length _ _ _ _ Hr) as Ho.
  apply map_eq; intros x. rewrite !write_bytes_lookup, Ho, Hl.
  destruct (decide (a <= x < a + Z.of_nat n)); [|reflexivity].
  symmetry. eapply read_bytes_lookup; eauto.
Qed.

Lemma read_after_write (bs : list byte) (m : memory) a :
  read_bytes (write_bytes m a bs) a (length bs) = Some bs.
Proof.
  revert m a; induction bs as [|b bs IH]; intros m a; simpl; [reflexivity|].
  rewrite IH, write_bytes_lookup, decide_False by lia.
  rewrite lookup_insert_eq. reflexivity.
Qed.

Lemma lookup_is_hook target reg r :
  Registry.lookup target reg = Some r ->
  r ∈ reg /\ active r = true /\ target_address r = target.
Proof.
  unfold Registry.lookup. intros Hf. apply find_some in Hf as [Hin Hb].
  unfold Registry.is_hook_of in Hb. apply andb_true_iff in Hb as [Ha Ht].
  apply Z.eqb_eq in Ht. rewrite <- list_elem_of_In in Hin. auto.
Qed.

Lemma lookup_none target reg :
  Registry.lookup target reg = None ->
  Forall (fun r => Registry.is_hook_of target r = false) reg.
Proof.
  unfold Registry.lookup. intros Hf. apply Forall_forall. intros r Hin.
  apply (find_none _ _ Hf). rewrite <- list_elem_of_In. exact Hin.
Qed.

Lemma erase_absent target reg :
  Registry.lookup target reg = None -> Registry.erase target reg = reg.
Proof.
  intros Hn. apply lookup_none in Hn. unfold Registry.erase.
  induction Hn as [|r reg Hr _ IH]; [reflexivity|].
  rewrite filter_cons_True by exact Hr. f_equal. exact IH.
Qed.

Lemma lookup_erase target reg : Registry.lookup target (Registry.erase target reg) = None.
Proof.
  unfold Registry.lookup, Registry.erase. induction reg as [|r reg IH]; [reflexivity|].
  destruct (Registry.is_hook_of target r) eqn:Hr.
  - rewrite filter_cons_False by congruence. exact IH.
  - rewrite filter_cons_True by exact Hr. simpl. rewrite Hr. exact IH.
Qed.

Section Engine_facts.
Context {platform : Platform}.

Lemma patch_bytes_length (m : memory) target replacement n :
  split_point m target (length (branch_to target replacement)) = Some n ->
  length (patch_bytes target replacement n) = n.
Proof.
  intros Hs. apply split_point_covers in Hs. unfold patch_bytes.
  rewrite length_app, nop_fill_length. lia.
Qed.

(** What a successful [install] has done. *)
Lemma install_ok target replacement e tramp e1 :
  install target replacement e = (Ok tramp, e1) ->
  Registry.lookup target (registry e) = None /\
  executable target = true /\ executable replacement = true /\
  tramp = next_trampoline e /\
  exists n original moved,
    split_point (mem e) target (length (branch_to target replacement))
      = Some n /\
    read_bytes (mem e) target n = Some original /\
    relocate target tramp original = Some moved /\
    all_patchable target n = true /\
    mem e1 = write_bytes (mem e) target (patch_bytes target replacement n) /\
    registry e1 =
      {| target_address := target; original_bytes := original;
         trampoline_address := tramp; replacement_address := replacement;
         active := true |} :: registry e /\
    trampolines e1 =
      <[tramp := trampoline_code target tramp n moved]> (trampolines e).
Proof.
  unfold install, Registry.insert. simpl.
  destruct (Registry.lookup target (registry e)) eqn:Hl; [intros [=]|].
  destruct (executable target) eqn:Ht; simpl; [|intros [=]].
  destruct (executable replacement) eqn:Hr; simpl; [|intros [=]].
  destruct (split_point _ _ _) as [n|] eqn:Hs; [|intros [=]].
  destruct (read_bytes _ _ _) as [original|] eqn:Hb; [|intros [=]].
  destruct (relocate _ _ _) as [moved|] eqn:Hm; [|intros [=]].
  destruct (all_patchable target n) eqn:Hp; simpl; [|intros [=]].
  intros [= <- <-]. simpl. repeat split; eauto 10.
Qed.

(** A failed [install] or [remove] leaves the state as it was. *)
Lemma install_err target replacement e err e1 :
  install target replacement e = (Err err, e1) -> e1 = e.
Proof.
  unfold install, Registry.insert.
  repeat (match goal with
          | |- context [match ?x with _ => _ end] => destruct x
          end; simpl);
    intros [=]; auto.
Qed.

Lemma remove_err target e err e1 :
  remove target e = (Err err, e1) -> e1 = e /\ err = NotHooked.
Proof.
  unfold remove. destruct (Registry.lookup target (registry e)); intros [=]; auto.
Qed.

Lemma lookup_after_install target replacement e tramp e1 :
  install target replacement e = (Ok tramp, e1) ->
  exists r,
    Registry.lookup target (registry e1) = Some r /\
    target_address r = target /\ replacement_address r = replacement /\
    trampoline_address r = tramp /\ active r = true /\
    read_bytes (mem e) target (length (original_bytes r))
      = Some (original_bytes r).
Proof.
  intros Hi. apply install_ok in Hi
    as (_ & _ & _ & _ & n & original & moved & _ & Hr & _ & _ & _ & Hreg & _).
  eexists. rewrite Hreg. unfold Registry.lookup, Registry.is_hook_of. simpl.
  rewrite Z.eqb_refl. simpl. repeat split. simpl.
  rewrite (read_bytes_length _ _ _ _ Hr). exact Hr.
Qed.

Lemma one_hook_cons r reg :
  Registry.lookup (target_address r) reg = None ->
  one_hook_per_target reg -> one_hook_per_target (r :: reg).
Proof.
  unfold one_hook_per_target. intros Hl Hn.
  destruct (active r) eqn:Ha.
  - rewrite filter_cons_True by exact Ha. rewrite fmap_cons.
    apply NoDup_cons. split; [|exact Hn].
    intros Hin. apply list_elem_of_fmap in Hin as (r' & Ht & Hin).
    apply list_elem_of_filter in Hin as [Ha' Hin].
    apply lookup_none in Hl. rewrite Forall_forall in Hl.
    specialize (Hl r' Hin). unfold Registry.is_hook_of in Hl.
    rewrite Ha', Ht, Z.eqb_refl in Hl. discriminate.
  - rewrite filter_cons_False by congruence. exact Hn.
Qed.

Lemma one_hook_erase target reg :
  one_hook_per_target reg -> one_hook_per_target (Registry.erase target reg).
Proof.
  unfold one_hook_per_target, Registry.erase.
  induction reg as [|r reg IH]; [auto|].
  destruct (active r) eqn:Ha.
  - rewrite (filter_cons_True (fun r => active r = true)) by exact Ha.
    rewrite fmap_cons, NoDup_cons. intros [Hni Hn].
    destruct (Registry.is_hook_of target r) eqn:Hh.
    + rewrite filter_cons_False by congruence. auto.
    + rewrite filter_cons_True by exact Hh.
      rewrite filter_cons_True by exact Ha.
      rewrite fmap_cons, NoDup_cons. split; [|auto].
      intros Hin. apply Hni.
      apply list_elem_of_fmap in Hin as (r' & Ht & Hin).
      apply list_elem_of_fmap. exists r'. split; [exact Ht|].
      apply list_elem_of_filter in Hin as [Ha' Hin].
      apply list_elem_of_filter in Hin as [_ Hin].
      apply list_elem_of_filter. auto.
  - rewrite (filter_cons_False (fun r => active r = true)) by congruence.
    intros Hn. assert (Registry.is_hook_of target r = false) as Hh
      by (unfold Registry.is_hook_of; rewrite Ha; reflexivity).
    rewrite filter_cons_True by exact Hh.
    rewrite filter_cons_False by congruence. auto.
Qed.

Lemma reachable_one_hook e :
  reachable e -> one_hook_per_target (registry e).
Proof.
  induction 1 as [m first|target replacement e _ IH|target e _ IH].
  - apply NoDup_nil_2.
  - destruct (install target replacement e) as [[tramp|err] e1] eqn:Hi.
    + apply install_ok in Hi
        as (Hl & _ & _ & _ & n & original & moved & _ & _ & _ & _ & _ & Hreg & _).
      simpl. rewrite Hreg. apply one_hook_cons; assumption.
    + apply install_err in Hi as ->. exact IH.
  - unfold remove. destruct (Registry.lookup target (registry e)); simpl; [|exact IH].
    apply one_hook_erase. exact IH.
Qed.

(** C7: [install] on a target that has an active hook fails with
    [AlreadyHooked] and leaves the whole state (the record of the existing
    hook, the patched memory) as it was; in particular a second [install]
    after a successful one fails so, and calls through the target still go
    to the first replacement.  In every state the engine reaches, the active
    records have distinct target addresses. *)
Theorem install_on_hooked_target :
  (forall e target replacement r,
     Registry.lookup target (registry e) = Some r ->
     install target replacement e = (Err AlreadyHooked, e)) /\
  (forall e target first second tramp e1,
     install target first e = (Ok tramp, e1) ->
     install target second e1 = (Err AlreadyHooked, e1) /\
     call_through e1 target = Replacement first) /\
  (forall e, reachable e -> one_hook_per_target (registry e)).
Proof.
  assert (Hfirst : forall e target replacement r,
             Registry.lookup target (registry e) = Some r ->
             install target replacement e = (Err AlreadyHooked, e)).
  { intros e target replacement r Hl. unfold install. rewrite Hl.
    reflexivity. }
  split; [exact Hfirst|split].
  - intros e target first second tramp e1 Hi.
    apply lookup_after_install in Hi as (r & Hl & _ & Hr & _).
    split; [eauto|]. unfold call_through. rewrite Hl, Hr. reflexivity.
  - intros e He. apply reachable_one_hook. exact He.
Qed.

(** C8: after a successful [install], the bytes at the target are the
    patch, the record holds the bytes that were there before, as many as
    were overwritten, and calls through the target go to the replacement;
    [remove] then succeeds and leaves memory equal to memory before the
    [install], byte for byte, with every call going where it went before. *)
Theorem install_remove_round_trip e target replacement tramp e1 :
  install target replacement e = (Ok tramp, e1) ->
  exists n original e2,
    read_bytes (mem e) target n = Some original /\
    length original = n /\
    read_bytes (mem e1) target n = Some (patch_bytes target replacement n) /\
    Registry.lookup target (registry e1) =
      Some {| target_address := target; original_bytes := original;
              trampoline_address := tramp;
              replacement_address := replacement; active := true |} /\
    call_through e1 target = Replacement replacement /\
    remove target e1 = (Ok tt, e2) /\
    mem e2 = mem e /\
    read_bytes (mem e2) target n = Some original /\
    registry e2 = registry e /\
    (forall a, call_through e2 a = call_through e a).
Proof.
  intros Hi. pose proof (install_ok _ _ _ _ _ Hi)
    as (Hl & _ & _ & _ & n & original & moved & Hs & Hr & _ & _ & Hm & Hreg & _).
  pose proof (patch_bytes_length _ _ _ _ Hs) as Hp.
  pose proof (read_bytes_length _ _ _ _ Hr) as Ho.
  assert (Hl1 : Registry.lookup target (registry e1) =
                Some {| target_address := target; original_bytes := original;
                        trampoline_address := tramp;
                        replacement_address := replacement; active := true |}).
  { rewrite Hreg. unfold Registry.lookup, Registry.is_hook_of. simpl.
    rewrite Z.eqb_refl. reflexivity. }
  assert (Hreg2 : Registry.erase target (registry e1) = registry e).
  { rewrite Hreg. unfold Registry.erase.
    rewrite filter_cons_False
      by (unfold Registry.is_hook_of; simpl; rewrite Z.eqb_refl; discriminate).
    apply erase_absent. exact Hl. }
  assert (Hm2 : write_bytes (mem e1) target original = mem e).
  { rewrite Hm. eapply write_bytes_restore; eauto. }
  exists n, original. eexists. split_and!.
  - exact Hr.
  - exact Ho.
  - pose proof (read_after_write (patch_bytes target replacement n)
                  (mem e) target) as Hra.
    rewrite Hp in Hra. rewrite Hm. exact Hra.
  - exact Hl1.
  - unfold call_through. rewrite Hl1. reflexivity.
  - unfold remove. rewrite Hl1. simpl. reflexivity.
  - simpl. exact Hm2.
  - simpl. rewrite Hm2. exact Hr.
  - simpl. exact Hreg2.
  - intros a. unfold call_through. simpl. rewrite Hreg2. reflexivity.
Qed.

End Engine_facts.

(** *** The theorems on the machine *)

Import Machine.

Lemma install_on_hooked_target_witness :
  install target_fun 0x2010 (install target_fun 0x2000 (at_load text 0x4000)).2
  = (Err AlreadyHooked, (install target_fun 0x2000 (at_load text 0x4000)).2) /\
  call_through (install target_fun 0x2000 (at_load text 0x4000)).2 target_fun
  = Replacement 0x2000.
Proof.
  apply (proj1 (proj2 (install_on_hooked_target (platform := x86)))
           (at_load text 0x4000) target_fun 0x2000 0x2010 0x4000).
  vm_compute. reflexivity.
Defined.

Lemma install_remove_round_trip_witness :
  exists e2,
    remove target_fun (install target_fun 0x2000 (at_load text 0x4000)).2
    = (Ok tt, e2) /\
    mem e2 = text /\
    call_through e2 target_fun = Original target_fun.
Proof.
  assert (Hi : install (platform := x86) target_fun 0x2000 (at_load text 0x4000)
               = (Ok 0x4000,
                  (install (platform := x86) target_fun 0x2000
                     (at_load text 0x4000)).2))
    by (vm_compute; reflexivity).
  destruct (install_remove_round_trip _ _ _ _ _ Hi)
    as (n & original & e2 & _ & _ & _ & _ & _ & Hrm & Hm & _ & _ & Hc).
  exists e2. split; [exact Hrm|]. split; [exact Hm|].
  rewrite Hc. reflexivity.
Defined.

End HookEngineSpec.

(** ** The module and the engine together *)

Module Scenario.
Import CStr Demo HookEngine Machine.

(** C2: [fake] returns what the call through [backup] returns, plus 1.  On
    the machine, the function at [target_fun] returns 41; once
    [on_library_loaded] has installed the hook through the engine, with the
    trampoline address stored in [backup], a call of [target_fun] returns
    42; once the hook is removed it returns 41 again. *)
Theorem fake_adds_one :
  (forall (H : Type) (host : Host H) (w : world H) r h',
     backup (module w) <> nullptr ->
     call_int (backup (module w)) (host_state w) = Some (r, h') ->
     INT_MIN <= r + 1 <= INT_MAX ->
     fake w = Returns (r + 1)
                {| module := module w; host_state := h';
                   trace := trace w ++ [EvCallInt (backup (module w))] |}) /\
  (forall (H : Type) (host : Host H) (w w' : world H) v,
     fake w = Returns v w' ->
     exists r,
       call_int (backup (module w)) (host_state w) = Some (r, host_state w') /\
       v = r + 1) /\
  (call_function 16 (module process_at_load) (host_state process_at_load)
     target_fun = Some 41 /\
   native_init (host := loader_host) entries process_at_load
     = Returns (Fn F_on_library_loaded) process_initialised /\
   on_library_loaded (host := loader_host) "/system/lib64/libtarget.so"
     (Extern 1) process_initialised = Returns tt process_hooked /\
   call_through (host_state process_hooked) target_fun
     = Replacement (address_of (Fn F_fake)) /\
   backup (module process_hooked) = Extern 0x4000 /\
   call_through (host_state process_hooked) 0x4000 = Original target_fun /\
   call_function 16 (module process_hooked) (host_state process_hooked)
     target_fun = Some 42 /\
   remove target_fun (host_state process_hooked) = (Ok tt, engine_unhooked) /\
   call_function 16 (module process_hooked) engine_unhooked target_fun
     = Some 41).
Proof.
  split; [|split].
  - intros H host w r h'. apply DemoSpec.fake_returns.
  - intros H host w w' v Hf.
    apply DemoSpec.fake_inv in Hf as (_ & _ & r & Hc & ->). eauto.
  - split_and!; vm_compute; reflexivity.
Qed.

Lemma fake_adds_one_witness :
  fake (host := fixed_host) (world_of hooked_globals)
  = Returns 42
      {| module := hooked_globals; host_state := tt;
         trace := [EvCallInt (Extern 4096)] |}.
Proof.
  apply (proj1 fake_adds_one unit fixed_host (world_of hooked_globals) 41 tt).
  - discriminate.
  - reflexivity.
  - unfold INT_MIN, INT_MAX. lia.
Defined.

End Scenario.

(** ** Further properties of the functions of demo.cpp *)

Module RunsSpec.
Import CStr Demo Runs DemoSpec.

Lemma load_store_eq s p g : load s (store s p g) = p.
Proof. destruct s; reflexivity. Qed.

Lemma load_store_ne s s0 p g : s <> s0 -> load s (store s0 p g) = load s g.
Proof. destruct s, s0; simpl; congruence. Qed.

Lemma load_slot_after_ne s s0 o g :
  s <> s0 -> load s (slot_after s0 o g) = load s g.
Proof. intros Hne. destruct o; [apply load_store_ne; exact Hne | reflexivity]. Qed.

Lemma load_set_hook_func s p g : load s (set_hook_func p g) = load s g.
Proof. destruct s; reflexivity. Qed.

Section Runs_facts.
Context {H : Type} {host : Host H}.

(** What a returning run of each function has done to the globals. *)
Lemma run_module (c : entry) (w w' : world H) v :
  run c w = Returns v w' ->
  match c with
  | Call_native_init entries =>
      exists wr, module w' = slot_after S_backup_fopen wr
                               (set_hook_func (hookFunc entries) (module w))
  | Call_JNI_OnLoad _ _ =>
      exists wr, module w' = slot_after S_backup_FindClass wr (module w)
  | Call_on_library_loaded name _ =>
      if ends_with name "libtarget.so"
      then exists wr, module w' = slot_after S_backup wr (module w)
      else w' = w
  | Call_fake | Call_fake_fopen _ _ | Call_fake_FindClass _ _ =>
      module w' = module w
  end.
Proof.
  destruct c as [|filename mode|env name|name handle|jvm reserved|entries];
    unfold run; unfold_M; simpl.
  - destruct (fake w) as [r w1|] eqn:Hf; simpl; [|discriminate].
    intros [= <- <-]. apply fake_inv in Hf as (Hm & _). exact Hm.
  - destruct (fake_fopen filename mode w) as [r w1|] eqn:Hf; simpl;
      [|discriminate].
    intros [= <- <-]. apply fake_fopen_inv in Hf as (Hm & _). exact Hm.
  - destruct (fake_FindClass env name w) as [r w1|] eqn:Hf; simpl;
      [|discriminate].
    intros [= <- <-]. apply fake_FindClass_inv in Hf as (Hm & _). exact Hm.
  - destruct (on_library_loaded name handle w) as [r w1|] eqn:Hf; simpl;
      [|discriminate].
    intros [= <- <-].
    apply on_library_loaded_inv in Hf
      as [(Hs & ->)|(Hs & Hn & st & wr & Hc & Hw)]; rewrite Hs.
    + reflexivity.
    + exists wr. rewrite Hw. reflexivity.
  - destruct (JNI_OnLoad jvm reserved w) as [r w1|] eqn:Hf; simpl;
      [|discriminate].
    intros [= <- <-].
    apply JNI_OnLoad_inv in Hf as (_ & Hn & env & st & wr & He & Hc & Hw).
    exists wr. rewrite Hw. reflexivity.
  - destruct (native_init entries w) as [r w1|] eqn:Hf; simpl;
      [|discriminate].
    intros [= <- <-].
    apply native_init_inv in Hf as (_ & Hn & st & wr & Hc & Hw).
    exists wr. rewrite Hw. reflexivity.
Qed.

(** X1: a returning run of a function of the module leaves every [backup]
    global other than the one whose address it passes to the hook function
    as it was, and a run that reaches no hook installation (a replacement,
    or [on_library_loaded] on another name) leaves all four globals as they
    were. *)
Theorem slots_frame (c : entry) (w w' : world H) v :
  run c w = Returns v w' ->
  (forall s, slot_passed c <> Some s ->
             load s (module w') = load s (module w)) /\
  (installs c = false -> module w' = module w).
Proof.
  intros Hr. apply run_module in Hr.
  destruct c as [|filename mode|env name|name handle|jvm reserved|entries];
    simpl in *.
  - rewrite Hr. auto.
  - rewrite Hr. auto.
  - rewrite Hr. auto.
  - destruct (ends_with name "libtarget.so").
    + destruct Hr as [wr ->]. split; [|discriminate].
      intros s Hs. apply load_slot_after_ne. congruence.
    + subst w'. auto.
  - destruct Hr as [wr ->]. split; [|discriminate].
    intros s Hs. apply load_slot_after_ne. congruence.
  - destruct Hr as [wr ->]. split; [|discriminate].
    intros s Hs. rewrite load_slot_after_ne by congruence.
    apply load_set_hook_func.
Qed.

Lemma external_null_call_iff {A} callee e (f : H -> option (A * H))
    (w : world H) :
  external callee e f w = Faults NullCall <-> callee = nullptr.
Proof.
  unfold external. destruct (decide (callee = nullptr)) as [Hn|Hn].
  - tauto.
  - destruct (f (host_state w)) as [[a h']|]; split;
      try discriminate; contradiction.
Qed.

Lemma call_HookFunType_null_call_iff f func replace s (w : world H) :
  call_HookFunType f func replace s w = Faults NullCall <-> f = nullptr.
Proof.
  split.
  - unfold call_HookFunType. unfold_M.
    destruct (external f _ _ w) as [[st wr] w1|flt] eqn:He.
    + destruct wr; simpl; discriminate.
    + intros [= ->]. apply external_null_call_iff in He. exact He.
  - intros ->. reflexivity.
Qed.

Lemma initialised_hook_func (w : world H) :
  initialised w -> hook_func (module w) <> nullptr.
Proof.
  induction 1 as [entries w r w' Hi|c w v w' _ IH Hr|w h _ IH].
  - apply native_init_inv in Hi as (_ & Hn & st & wr & _ & ->). simpl.
    rewrite hook_func_slot_after. exact Hn.
  - pose proof (run_inv _ _ _ _ Hr) as (_ & _ & _ & _ & _ & Hf).
    rewrite Hf. destruct c; simpl; try exact IH.
    revert Hr. unfold run. unfold_M. simpl.
    destruct (native_init entries w) as [r w1|] eqn:Hi; simpl;
      [|discriminate].
    intros _. apply native_init_inv in Hi as (_ & Hn & _). exact Hn.
  - exact IH.
Qed.

(** X2: once [native_init] has returned, [hook_func] is never null again,
    whatever functions of the module have run since and whatever the host
    has done to its own state; so [JNI_OnLoad] and [on_library_loaded] do
    not call through a null function pointer from then on. *)
Theorem hook_func_stays_set (w : world H) :
  initialised w ->
  hook_func (module w) <> nullptr /\
  (forall jvm reserved, JNI_OnLoad jvm reserved w <> Faults NullCall) /\
  (forall name handle, on_library_loaded name handle w <> Faults NullCall).
Proof.
  intros Hi. apply initialised_hook_func in Hi. split_and!.
  - exact Hi.
  - intros jvm reserved. unfold JNI_OnLoad. unfold_M. simpl.
    destruct (GetEnv jvm JNI_VERSION_1_6).2 as [env|]; [|discriminate].
    simpl. destruct (call_HookFunType _ _ _ _ _) as [st w1|flt] eqn:Hc;
      [discriminate|].
    intros [= ->]. apply call_HookFunType_null_call_iff in Hc. auto.
  - intros name handle. unfold on_library_loaded.
    destruct (ends_with name "libtarget.so"); [|discriminate].
    unfold dlsym. unfold_M.
    destruct (call_dlsym handle "target_fun" (host_state w)) as [t h1].
    simpl. destruct (call_HookFunType _ _ _ _ _) as [st w1|flt] eqn:Hc;
      [discriminate|].
    intros [= ->]. apply call_HookFunType_null_call_iff in Hc. auto.
Qed.

(** X3: each replacement calls through a null function pointer exactly when
    it reaches its call of the saved original and the global holding it is
    still null: [fake] always reaches it, [fake_fopen] on the filenames
    without "banned", [fake_FindClass] on the names other than
    "dalvik/system/BaseDexClassLoader".  A blocked request returns null
    without needing the saved original: whatever the global holds, null
    included, nothing is called and nothing changes. *)
Theorem replacements_null_call :
  (forall w : world H,
     fake w = Faults NullCall <-> backup (module w) = nullptr) /\
  (forall filename mode (w : world H),
     fake_fopen filename mode w = Faults NullCall <->
     ~ contains filename "banned" /\ backup_fopen (module w) = nullptr) /\
  (forall env name (w : world H),
     fake_FindClass env name w = Faults NullCall <->
     name <> "dalvik/system/BaseDexClassLoader" /\
     backup_FindClass (module w) = nullptr) /\
  (forall filename mode (w : world H),
     contains filename "banned" ->
     fake_fopen filename mode w = Returns nullptr w) /\
  (forall env (w : world H),
     fake_FindClass env "dalvik/system/BaseDexClassLoader" w
     = Returns nullptr w).
Proof.
  split_and!.
  - intros w. unfold fake. unfold_M. simpl.
    destruct (external _ _ _ w) as [r w1|flt] eqn:He.
    + apply external_inv in He as (Hn & _). unfold int_add.
      destruct (_ && _); split; try discriminate; contradiction.
    + split.
      * intros [= ->]. apply external_null_call_iff in He. exact He.
      * intros Hn. rewrite Hn, external_null in He. congruence.
  - intros filename mode w. unfold fake_fopen.
    destruct (strstr filename "banned") as [k|] eqn:Hk.
    + split; [discriminate|]. intros [Hc _]. exfalso. apply Hc.
      apply CStrFacts.strstr_contains. eauto.
    + unfold_M. simpl. rewrite external_null_call_iff.
      apply CStrFacts.strstr_none in Hk. tauto.
  - intros env name w. unfold fake_FindClass.
    destruct (Z.eqb_spec (strcmp name "dalvik/system/BaseDexClassLoader") 0)
      as [He|He]; rewrite CStrFacts.strcmp_eq in He.
    + split; [discriminate|]. tauto.
    + unfold_M. simpl. rewrite external_null_call_iff. tauto.
  - intros filename mode w Hc.
    apply CStrFacts.strstr_contains in Hc as [k Hk].
    unfold fake_fopen. rewrite Hk. reflexivity.
  - intros env w. reflexivity.
Qed.

(** X5: the conditions under which each entry point returns.
    [native_init] returns exactly when the table's [hookFunc] is not null
    and its call returns; [JNI_OnLoad] exactly when [GetEnv] has stored an
    environment, [hook_func] is not null and its call returns;
    [on_library_loaded] exactly when the name does not end with
    "libtarget.so", or [hook_func] is not null and its call returns. *)
Theorem entry_points_return_iff :
  (forall entries (w : world H),
     (exists r w', native_init entries w = Returns r w') <->
     hookFunc entries <> nullptr /\
     is_Some (call_hook (hookFunc entries) (Symbol "fopen") (Fn F_fake_fopen)
                (Slot S_backup_fopen) (host_state w))) /\
  (forall jvm reserved (w : world H),
     (exists r w', JNI_OnLoad jvm reserved w = Returns r w') <->
     exists env,
       (GetEnv jvm JNI_VERSION_1_6).2 = Some env /\
       hook_func (module w) <> nullptr /\
       is_Some (call_hook (hook_func (module w)) (FindClass (functions env))
                  (Fn F_fake_FindClass) (Slot S_backup_FindClass)
                  (host_state w))) /\
  (forall name handle (w : world H),
     (exists r w', on_library_loaded name handle w = Returns r w') <->
     ~ has_suffix name "libtarget.so" \/
     (hook_func (module w) <> nullptr /\
      is_Some (call_hook (hook_func (module w))
                 (call_dlsym handle "target_fun" (host_state w)).1 (Fn F_fake)
                 (Slot S_backup)
                 (call_dlsym handle "target_fun" (host_state w)).2))).
Proof.
  split_and!.
  - intros entries w. split.
    + intros (r & w' & Hr).
      apply native_init_inv in Hr as (_ & Hn & st & wr & Hc & _).
      rewrite Hc. eauto.
    + intros (Hn & [[[st wr] h'] Hc]). do 2 eexists.
      eapply native_init_returns; eassumption.
  - intros jvm reserved w. split.
    + intros (r & w' & Hr).
      apply JNI_OnLoad_inv in Hr as (_ & Hn & env & st & wr & He & Hc & _).
      exists env. rewrite Hc. eauto.
    + intros (env & He & Hn & [[[st wr] h'] Hc]). do 2 eexists.
      eapply JNI_OnLoad_returns; eassumption.
  - intros name handle w. rewrite <- CStrFacts.ends_with_spec. split.
    + intros (r & w' & Hr).
      apply on_library_loaded_inv in Hr
        as [(Hs & _)|(Hs & Hn & st & wr & Hc & _)].
      * left. congruence.
      * right. rewrite Hc. eauto.
    + intros [Hs|(Hn & [[[st wr] h'] Hc])].
      * do 2 eexists. apply on_library_loaded_skips.
        destruct (ends_with name "libtarget.so"); congruence.
      * destruct (ends_with name "libtarget.so") eqn:Hs.
        -- do 2 eexists. eapply on_library_loaded_returns; eassumption.
        -- do 2 eexists. apply on_library_loaded_skips. exact Hs.
Qed.

(** X6: every hook call the module makes pairs a replacement with the
    global that this replacement calls the original through ([fake] with
    [&backup], [fake_fopen] with [&backup_fopen], [fake_FindClass] with
    [&backup_FindClass]); and when a replacement calls the original, the
    call goes through the value this global holds at that moment. *)
Theorem replacements_paired_with_slots (c : entry) (w w' : world H) v :
  run c w = Returns v w' ->
  exists evs,
    trace w' = trace w ++ evs /\
    Forall well_paired (hook_calls evs) /\
    (forall s, calls_through (function_of c) = Some s ->
               Forall (fun p => p = load s (module w))
                 (original_callees evs)).
Proof.
  destruct c as [|filename mode|env name|name handle|jvm reserved|entries];
    unfold run; unfold_M; simpl.
  - destruct (fake w) as [r w1|] eqn:Hf; simpl; [|discriminate].
    intros [= <- <-]. apply fake_inv in Hf as (_ & Ht & _).
    eexists. split; [exact Ht|]. simpl. split; [constructor|].
    intros s [= <-]. repeat constructor.
  - destruct (fake_fopen filename mode w) as [r w1|] eqn:Hf; simpl;
      [|discriminate].
    intros [= <- <-]. apply fake_fopen_inv in Hf as (_ & [Ht|Ht]).
    + exists []. rewrite app_nil_r. simpl. repeat split; auto.
    + eexists. split; [exact Ht|]. simpl. split; [constructor|].
      intros s [= <-]. repeat constructor.
  - destruct (fake_FindClass env name w) as [r w1|] eqn:Hf; simpl;
      [|discriminate].
    intros [= <- <-]. apply fake_FindClass_inv in Hf as (_ & [Ht|Ht]).
    + exists []. rewrite app_nil_r. simpl. repeat split; auto.
    + eexists. split; [exact Ht|]. simpl. split; [constructor|].
      intros s [= <-]. repeat constructor.
  - destruct (on_library_loaded name handle w) as [r w1|] eqn:Hf; simpl;
      [|discriminate].
    intros [= <- <-].
    apply on_library_loaded_inv in Hf
      as [(Hs & ->)|(Hs & Hn & st & wr & Hc & ->)].
    + exists []. rewrite app_nil_r. simpl. repeat split; auto; discriminate.
    + eexists. split; [reflexivity|]. simpl. split; [|discriminate].
      repeat constructor. exists F_fake, S_backup. auto.
  - destruct (JNI_OnLoad jvm reserved w) as [r w1|] eqn:Hf; simpl;
      [|discriminate].
    intros [= <- <-].
    apply JNI_OnLoad_inv in Hf as (_ & Hn & env & st & wr & He & Hc & ->).
    eexists. split; [reflexivity|]. simpl. split; [|discriminate].
    repeat constructor. exists F_fake_FindClass, S_backup_FindClass. auto.
  - destruct (native_init entries w) as [r w1|] eqn:Hf; simpl;
      [|discriminate].
    intros [= <- <-].
    apply native_init_inv in Hf as (_ & Hn & st & wr & Hc & ->).
    eexists. split; [reflexivity|]. simpl. split; [|discriminate].
    repeat constructor. exists F_fake_fopen, S_backup_fopen. auto.
Qed.

(** *** Sequences of calls *)

Lemma run_all_cons_inv c cs (w w' : world H) vs :
  run_all (c :: cs) w = Returns vs w' ->
  exists v w1 vs',
    run c w = Returns v w1 /\ run_all cs w1 = Returns vs' w' /\
    vs = v :: vs'.
Proof.
  simpl. unfold_M.
  destruct (run c w) as [v w1|] eqn:Hc; [|discriminate].
  destruct (run_all cs w1) as [vs' w2|] eqn:Hr; [|discriminate].
  intros [= <- <-]. exists v, w1, vs'. auto.
Qed.

Lemma hook_calls_app evs1 evs2 :
  hook_calls (evs1 ++ evs2) = hook_calls evs1 ++ hook_calls evs2.
Proof.
  induction evs1 as [|e evs1 IH]; [reflexivity|].
  destruct e; simpl; rewrite ?IH; reflexivity.
Qed.

Lemma run_other_slot (c : entry) (w w' : world H) v s :
  run c w = Returns v w' ->
  slot_passed c <> Some s ->
  load s (module w') = load s (module w).
Proof.
  intros Hr Hs. apply run_module in Hr.
  destruct c as [|filename mode|env name|name handle|jvm reserved|entries];
    simpl in *; try (rewrite Hr; reflexivity).
  - destruct (ends_with name "libtarget.so"); [|subst w'; reflexivity].
    destruct Hr as [wr ->]. apply load_slot_after_ne. congruence.
  - destruct Hr as [wr ->]. apply load_slot_after_ne. congruence.
  - destruct Hr as [wr ->]. rewrite load_slot_after_ne by congruence.
    apply load_set_hook_func.
Qed.

Lemma run_hook_count (c : entry) (w w' : world H) v :
  run c w = Returns v w' ->
  length (hooks_of c w) = if installs c then 1%nat else 0%nat.
Proof.
  destruct c as [|filename mode|env name|name handle|jvm reserved|entries];
    simpl; try reflexivity.
  - destruct (ends_with name "libtarget.so"); reflexivity.
  - unfold run. unfold_M. simpl.
    destruct (JNI_OnLoad jvm reserved w) as [r w1|] eqn:Hf; simpl;
      [|discriminate].
    intros _. apply JNI_OnLoad_inv in Hf as (_ & _ & env & _ & _ & He & _).
    rewrite He. reflexivity.
Qed.

Lemma run_no_install (c : entry) (w w' : world H) v :
  run c w = Returns v w' -> installs c = false -> module w' = module w.
Proof.
  intros Hr Hi. apply run_module in Hr.
  destruct c as [|filename mode|env name|name handle|jvm reserved|entries];
    simpl in *; try discriminate; try exact Hr.
  rewrite Hi in Hr. subst w'. reflexivity.
Qed.

Lemma run_not_hooked (c : entry) (w w' : world H) v s :
  run c w = Returns v w' ->
  slot_hooked c <> Some s ->
  load s (module w') = load s (module w).
Proof.
  intros Hr Hs. unfold slot_hooked in Hs.
  destruct (installs c) eqn:Hi.
  - eapply run_other_slot; eassumption.
  - rewrite (run_no_install _ _ _ _ Hr Hi). reflexivity.
Qed.

(** [slot_hooked] is the [backup] argument of the hook calls a returning
    run makes. *)
Lemma slot_hooked_is_passed (c : entry) (w w' : world H) v :
  run c w = Returns v w' ->
  (fun h => h.2) <$> hooks_of c w =
  match slot_hooked c with
  | Some s => [Slot s]
  | None => []
  end.
Proof.
  intros Hr. unfold slot_hooked.
  destruct c as [|filename mode|env name|name handle|jvm reserved|entries];
    simpl; try reflexivity.
  - destruct (ends_with name "libtarget.so"); reflexivity.
  - revert Hr. unfold run. unfold_M. simpl.
    destruct (JNI_OnLoad jvm reserved w) as [r w1|] eqn:Hf; simpl;
      [|discriminate].
    intros _. apply JNI_OnLoad_inv in Hf as (_ & _ & env & _ & _ & He & _).
    rewrite He. reflexivity.
Qed.

(** X7: over any sequence of calls of the module that all return, a
    [backup] global keeps its value unless one of the calls passes its
    address to the hook function: the original saved for a replacement
    survives every call that does not install that replacement again,
    library loads that do not match included. *)
Theorem saved_original_survives (cs : list entry) (s : backup_slot)
    (w w' : world H) vs :
  run_all cs w = Returns vs w' ->
  Forall (fun c => slot_hooked c <> Some s) cs ->
  load s (module w') = load s (module w).
Proof.
  revert w vs; induction cs as [|c cs IH]; intros w vs Hr Hs.
  - simpl in Hr. unfold_M. injection Hr as <- <-. reflexivity.
  - apply run_all_cons_inv in Hr as (v & w1 & vs' & Hc & Hrest & _).
    inversion Hs as [|c' cs' Hc' Hcs']; subst.
    rewrite (IH _ _ Hrest Hcs'). eapply run_not_hooked; eassumption.
Qed.

(** X8: over any sequence of calls of the module that all return, the
    module makes as many hook calls as the sequence has calls of
    [native_init], of [JNI_OnLoad] and of [on_library_loaded] on a name
    ending with "libtarget.so": there is no guard against installing a hook
    again, and one value is returned per call. *)
Theorem hook_calls_of_sequence (cs : list entry) (w w' : world H) vs :
  run_all cs w = Returns vs w' ->
  exists evs,
    trace w' = trace w ++ evs /\
    length (hook_calls evs)
      = length (filter (fun c => installs c = true) cs) /\
    length vs = length cs.
Proof.
  revert w vs; induction cs as [|c cs IH]; intros w vs Hr.
  - simpl in Hr. unfold_M. injection Hr as <- <-.
    exists []. rewrite app_nil_r. auto.
  - apply run_all_cons_inv in Hr as (v & w1 & vs' & Hc & Hrest & ->).
    pose proof (run_hook_count _ _ _ _ Hc) as Hn.
    apply run_inv in Hc as (evs1 & Ht1 & Hh1 & _).
    apply IH in Hrest as (evs2 & Ht2 & Hh2 & Hl).
    exists (evs1 ++ evs2). split_and!.
    + rewrite Ht2, Ht1, app_assoc. reflexivity.
    + rewrite hook_calls_app, length_app, Hh1, Hn, Hh2.
      destruct (installs c) eqn:Hi.
      * rewrite filter_cons_True by exact Hi. reflexivity.
      * rewrite filter_cons_False by congruence. reflexivity.
    + simpl. rewrite Hl. reflexivity.
Qed.

(** X9: [native_init] reads nothing of the table but [hookFunc]: tables
    with the same [hookFunc] are treated alike, whatever their [version]
    (no version check is made) and [unhookFunc]. *)
Theorem native_init_reads_hookFunc_only (e1 e2 : NativeAPIEntries)
    (w : world H) :
  hookFunc e1 = hookFunc e2 -> native_init e1 w = native_init e2 w.
Proof.
  intros He. unfold native_init. rewrite He. reflexivity.
Qed.

Lemma contains_length s x :
  contains s x -> (String.length x <= String.length s)%nat.
Proof.
  intros (pre & post & ->). rewrite !CStrFacts.length_app. lia.
Qed.

(** X10: names too short to hold the pattern pass.  [fake_fopen] hands
    every filename of fewer than 6 characters, the empty one included, to
    the original; [on_library_loaded] does nothing on a name of fewer than
    12 characters, without reading before the start of the name.  And when
    the library has no "target_fun" ([dlsym] returns null),
    [on_library_loaded] still makes its hook call, with a null target. *)
Theorem short_names_and_missing_symbol :
  (forall filename mode (w : world H),
     (String.length filename < 6)%nat ->
     fake_fopen filename mode w =
     external (backup_fopen (module w))
       (EvFopen (backup_fopen (module w)) filename mode)
       (call_fopen (backup_fopen (module w)) filename mode) w) /\
  (forall name handle (w : world H),
     (String.length name < 12)%nat ->
     on_library_loaded name handle w = Returns tt w) /\
  (forall name handle (w : world H) h1 st wr h',
     has_suffix name "libtarget.so" ->
     hook_func (module w) <> nullptr ->
     call_dlsym handle "target_fun" (host_state w) = (nullptr, h1) ->
     call_hook (hook_func (module w)) nullptr (Fn F_fake) (Slot S_backup) h1
       = Some (st, wr, h') ->
     on_library_loaded name handle w =
     Returns tt
       {| module := slot_after S_backup wr (module w);
          host_state := h';
          trace := trace w ++
            [EvDlsym handle "target_fun";
             EvHook (hook_func (module w)) nullptr (Fn F_fake)
               (Slot S_backup)] |}).
Proof.
  split_and!.
  - intros filename mode w Hl. unfold fake_fopen.
    destruct (strstr filename "banned") as [k|] eqn:Hk; [|reflexivity].
    assert (contains filename "banned") as Hc
      by (apply CStrFacts.strstr_contains; eauto).
    apply contains_length in Hc. simpl in Hc. lia.
  - intros name handle w Hl. apply on_library_loaded_skips.
    unfold ends_with. apply andb_false_iff. left.
    apply Nat.leb_gt. simpl. exact Hl.
  - intros name handle w h1 st wr h' Hs Hn Hd Hc.
    apply CStrFacts.ends_with_spec in Hs.
    erewrite on_library_loaded_returns; rewrite ?Hd; simpl; eauto.
Qed.

End Runs_facts.

Section Status.
Context {H : Type} (host1 host2 : Host H).
Hypothesis same : same_but_status host1 host2.

Lemma external_ext {A} callee e (f1 f2 : H -> option (A * H)) (w : world H) :
  (forall h, f1 h = f2 h) -> external callee e f1 w = external callee e f2 w.
Proof. intros Hf. unfold external. rewrite Hf. reflexivity. Qed.

Lemma call_HookFunType_status f func replace s (w : world H) :
  match call_HookFunType (host := host1) f func replace s w,
        call_HookFunType (host := host2) f func replace s w with
  | Returns _ w1, Returns _ w2 => w1 = w2
  | Faults e1, Faults e2 => e1 = e2
  | _, _ => False
  end.
Proof.
  destruct same as (Hh & _).
  specialize (Hh f func replace (Slot s) (host_state w)).
  unfold call_HookFunType, external. unfold_M.
  destruct (decide (f = nullptr)); [reflexivity|].
  destruct (call_hook (Host := host1) f func replace (Slot s) (host_state w))
    as [[[st1 wr1] h1]|];
    destruct (call_hook (Host := host2) f func replace (Slot s) (host_state w))
      as [[[st2 wr2] h2]|]; simpl in Hh; try discriminate; [|reflexivity].
  injection Hh as -> ->. destruct wr2; reflexivity.
Qed.

(** X11: the status the hook function returns is dropped.  Under two hosts
    that differ only in that status (one reports success where the other
    reports failure), every function of the module returns the same value,
    leaves the same globals and makes the same calls: a failed hook is not
    reported to the caller of [native_init], [JNI_OnLoad] or
    [on_library_loaded]. *)
Theorem hook_status_is_dropped (c : entry) (w : world H) :
  run (host := host1) c w = run (host := host2) c w.
Proof.
  pose proof same as (_ & Hd & Hi & Hf & Hc).
  destruct c as [|filename mode|env name|name handle|jvm reserved|entries];
    unfold run.
  - unfold fake. unfold_M. simpl.
    rewrite (external_ext _ _ _ (call_int (Host := host2) (backup (module w))))
      by (intros h; apply Hi).
    reflexivity.
  - unfold fake_fopen. unfold_M.
    destruct (strstr filename "banned"); [reflexivity|]. simpl.
    rewrite (external_ext _ _ _
               (call_fopen (Host := host2) (backup_fopen (module w))
                  filename mode))
      by (intros h; apply Hf).
    reflexivity.
  - unfold fake_FindClass. unfold_M.
    destruct (_ =? 0); [reflexivity|]. simpl.
    rewrite (external_ext _ _ _
               (call_FindClass (Host := host2) (backup_FindClass (module w))
                  env name))
      by (intros h; apply Hc).
    reflexivity.
  - unfold on_library_loaded.
    destruct (ends_with name "libtarget.so"); [|reflexivity].
    unfold dlsym. unfold_M. rewrite Hd.
    destruct (call_dlsym (Host := host2) handle "target_fun" (host_state w))
      as [target h1]. simpl.
    match goal with
    | |- context [call_HookFunType (host := host1) ?f ?a ?b ?s ?w0] =>
        pose proof (call_HookFunType_status f a b s w0) as Hs
    end.
    destruct (call_HookFunType (host := host1) _ _ _ _ _);
      destruct (call_HookFunType (host := host2) _ _ _ _ _);
      simpl; try contradiction; congruence.
  - unfold JNI_OnLoad. unfold_M. simpl.
    destruct (GetEnv jvm JNI_VERSION_1_6).2 as [env|]; [|reflexivity]. simpl.
    match goal with
    | |- context [call_HookFunType (host := host1) ?f ?a ?b ?s ?w0] =>
        pose proof (call_HookFunType_status f a b s w0) as Hs
    end.
    destruct (call_HookFunType (host := host1) _ _ _ _ _);
      destruct (call_HookFunType (host := host2) _ _ _ _ _);
      simpl; try contradiction; congruence.
  - unfold native_init. unfold_M. simpl.
    match goal with
    | |- context [call_HookFunType (host := host1) ?f ?a ?b ?s ?w0] =>
        pose proof (call_HookFunType_status f a b s w0) as Hs
    end.
    destruct (call_HookFunType (host := host1) _ _ _ _ _);
      destruct (call_HookFunType (host := host2) _ _ _ _ _);
      simpl; try contradiction; congruence.
Qed.

End Status.

Lemma slots_frame_witness :
  load S_backup_fopen
    {| hook_func := Extern 256; backup := Extern 4096;
       backup_fopen := Extern 22; backup_FindClass := Extern 33 |}
  = load S_backup_fopen distinct_globals.
Proof.
  apply (proj1 (slots_frame (host := fixed_host)
                  (Call_on_library_loaded "/vendor/lib64/libtarget.so"
                     (Extern 1))
                  (world_of distinct_globals)
                  {| module :=
                       {| hook_func := Extern 256; backup := Extern 4096;
                          backup_fopen := Extern 22;
                          backup_FindClass := Extern 33 |};
                     host_state := tt;
                     trace := [EvDlsym (Extern 1) "target_fun";
                               EvHook (Extern 256) (Extern 8192) (Fn F_fake)
                                 (Slot S_backup)] |}
                  V_void ltac:(vm_compute; reflexivity))).
  discriminate.
Defined.

Lemma hook_func_stays_set_witness :
  match native_init (host := fixed_host) table (world_of globals_at_load) with
  | Returns _ w1 =>
      hook_func (module w1) <> nullptr /\
      (forall jvm reserved,
         JNI_OnLoad (host := fixed_host) jvm reserved w1 <> Faults NullCall) /\
      (forall name handle,
         on_library_loaded (host := fixed_host) name handle w1
         <> Faults NullCall)
  | Faults _ => False
  end.
Proof.
  destruct (native_init (host := fixed_host) table (world_of globals_at_load))
    as [r w1|flt] eqn:Hi.
  - apply (hook_func_stays_set (host := fixed_host) w1).
    eapply initialised_by. exact Hi.
  - vm_compute in Hi. discriminate.
Defined.

Lemma replacements_null_call_witness :
  fake_fopen (host := bare_host) "/data/banned/list" "r"
    (world_of globals_at_load)
  = Returns nullptr (world_of globals_at_load) /\
  fake_fopen (host := bare_host) "/data/list" "r" (world_of globals_at_load)
  = Faults NullCall.
Proof.
  destruct (replacements_null_call (host := bare_host))
    as (_ & Hnull & _ & Hblocked & _).
  split.
  - apply Hblocked. exists "/data/", "/list". reflexivity.
  - apply Hnull. split; [|reflexivity].
    apply CStrFacts.strstr_none. reflexivity.
Defined.

Lemma replacements_paired_with_slots_witness :
  match run (host := fixed_host) (Call_native_init table)
          (world_of globals_at_load) with
  | Returns _ w' =>
      exists evs,
        trace w' = [] ++ evs /\
        Forall well_paired (hook_calls evs) /\
        (forall s, calls_through F_native_init = Some s ->
                   Forall (fun p => p = load s globals_at_load)
                     (original_callees evs))
  | Faults _ => False
  end.
Proof.
  destruct (run (host := fixed_host) (Call_native_init table)
              (world_of globals_at_load)) as [v w'|flt] eqn:Hr.
  - apply (replacements_paired_with_slots (host := fixed_host) _ _ _ _ Hr).
  - vm_compute in Hr. discriminate.
Defined.

Lemma saved_original_survives_witness :
  match run_all (host := fixed_host) other_calls (world_of distinct_globals)
  with
  | Returns _ w' => load S_backup (module w') = Extern 11
  | Faults _ => False
  end.
Proof.
  destruct (run_all (host := fixed_host) other_calls
              (world_of distinct_globals)) as [vs w'|flt] eqn:Hr.
  - apply (saved_original_survives (host := fixed_host) _ S_backup
             _ _ _ Hr).
    unfold other_calls.
    repeat (constructor; [vm_compute; discriminate|]). constructor.
  - vm_compute in Hr. discriminate.
Defined.

Lemma hook_calls_of_sequence_witness :
  match run_all (host := fixed_host) busy_day (world_of globals_at_load) with
  | Returns vs w' =>
      exists evs,
        trace w' = [] ++ evs /\
        length (hook_calls evs) = 4%nat /\
        length vs = 9%nat
  | Faults _ => False
  end.
Proof.
  destruct (run_all (host := fixed_host) busy_day (world_of globals_at_load))
    as [vs w'|flt] eqn:Hr.
  - apply (hook_calls_of_sequence (host := fixed_host) _ _ _ _ Hr).
  - vm_compute in Hr. discriminate.
Defined.

Lemma native_init_reads_hookFunc_only_witness :
  native_init (host := fixed_host) table (world_of globals_at_load)
  = native_init (host := fixed_host)
      {| version := 1; hookFunc := Extern 256; unhookFunc := nullptr |}
      (world_of globals_at_load).
Proof.
  apply (native_init_reads_hookFunc_only (host := fixed_host)). reflexivity.
Defined.

Lemma short_names_and_missing_symbol_witness :
  on_library_loaded (host := bare_host) "" (Extern 1)
    (world_of distinct_globals)
  = Returns tt (world_of distinct_globals) /\
  on_library_loaded (host := bare_host) "libtarget.so" (Extern 1)
    (world_of distinct_globals)
  = Returns tt
      {| module := distinct_globals; host_state := tt;
         trace := [EvDlsym (Extern 1) "target_fun";
                   EvHook (Extern 256) nullptr (Fn F_fake)
                     (Slot S_backup)] |}.
Proof.
  destruct (short_names_and_missing_symbol (host := bare_host))
    as (_ & Hshort & Hmissing).
  split.
  - apply Hshort. simpl. lia.
  - apply (Hmissing "libtarget.so" (Extern 1) (world_of distinct_globals)
             tt (-1) None tt).
    + exists "". reflexivity.
    + discriminate.
    + reflexivity.
    + reflexivity.
Defined.

Lemma hook_status_is_dropped_witness :
  run (host := fixed_host) (Call_JNI_OnLoad jvm_with_env nullptr)
    (world_of distinct_globals)
  = run (host := failing_status_host) (Call_JNI_OnLoad jvm_with_env nullptr)
      (world_of distinct_globals).
Proof.
  apply (hook_status_is_dropped fixed_host failing_status_host).
  repeat split.
Defined.

End RunsSpec.
